(** * Shibalik_drone.py: telemetry decoder, crash check and control loop

    A shallow embedding of [parse_telemetry], [check_crash] and the body of
    [drone_control] of [src/Shibalik_Roy/Shibalik_drone.py].

    Modelling choices, all of them visible in the definitions below:
    - a Python [float] is a [double]: a finite value, an infinity or nan.  A
      finite value is held as the rational it denotes, and a finite result
      is held exactly: the rounding of binary64 is not modelled.  Overflow
      is: a result at or beyond the overflow threshold of binary64 is an
      infinity, [**] then raises OverflowError and [int] of an infinity does
      too.  The properties below are stated so that they do not depend on
      how a finite result is rounded;
    - a Python [str] is a [string] over the 8-bit [ascii] alphabet; the
      classes [\d] and [\w] are the ASCII ones;
    - an exception is a value of [result]: [Raise e] is an uncaught [e];
    - the dictionary returned by [parse_telemetry] always has the same seven
      keys, so it is a record; its ['gyro'] entry is a list of any length,
      as in the source. *)

From Stdlib Require Import ZArith QArith Qabs Qround Qreals Reals.
From Stdlib Require Import Lia Psatz List String Ascii Bool.
Import ListNotations.

Open Scope Q_scope.

(** ** Python values *)

Module Py.

(** The exceptions the modelled code can raise. *)
Inductive exn : Type :=
| ValueError
| IndexError
| OverflowError.

Inductive result (A : Type) : Type :=
| Ok (a : A)
| Raise (e : exn).
Arguments Ok {A} a.
Arguments Raise {A} e.

Definition bind {A B : Type} (c : result A) (k : A -> result B) : result B :=
  match c with
  | Ok a => k a
  | Raise e => Raise e
  end.

(** [list(map(f, l))] for an [f] that may raise: the first exception wins. *)
Fixpoint map_result {A B : Type} (f : A -> result B) (l : list A)
  : result (list B) :=
  match l with
  | [] => Ok []
  | a :: l' =>
      bind (f a) (fun b => bind (map_result f l') (fun bs => Ok (b :: bs)))
  end.

(** Strict comparison of two rationals. *)
Definition Qltb (a b : Q) : bool := negb (Qle_bool b a).

(** A float. *)
Inductive double : Type :=
| Fin (q : Q)
| PInf
| NInf
| NaN.

(** Where binary64 overflows: the middle between its largest finite value
    and 2^1024.  A result of this magnitude or more is an infinity. *)
Definition overflow_threshold : Q := inject_Z (2 ^ 1024 - 2 ^ 970).

(** The float that holds a result whose exact value is [q]. *)
Definition of_exact (q : Q) : double :=
  if Qle_bool overflow_threshold q then PInf
  else if Qle_bool q (- overflow_threshold) then NInf
  else Fin q.

(** The float of an [int], as in a comparison or a difference of the two. *)
Definition of_int (z : Z) : double := Fin (inject_Z z).

(** [a < b] and [a <= b]; both are false as soon as one side is nan. *)
Definition dlt (a b : double) : bool :=
  match a, b with
  | Fin p, Fin q => Qltb p q
  | Fin _, PInf | NInf, Fin _ | NInf, PInf => true
  | _, _ => false
  end.

Definition dle (a b : double) : bool :=
  match a, b with
  | Fin p, Fin q => Qle_bool p q
  | Fin _, PInf | NInf, Fin _ | NInf, PInf | PInf, PInf | NInf, NInf => true
  | _, _ => false
  end.

Definition dabs (a : double) : double :=
  match a with
  | Fin q => Fin (Qabs q)
  | PInf | NInf => PInf
  | NaN => NaN
  end.

Definition dneg (a : double) : double :=
  match a with
  | Fin q => Fin (- q)
  | PInf => NInf
  | NInf => PInf
  | NaN => NaN
  end.

Definition dadd (a b : double) : double :=
  match a, b with
  | Fin p, Fin q => of_exact (p + q)
  | NaN, _ | _, NaN | PInf, NInf | NInf, PInf => NaN
  | PInf, _ | _, PInf => PInf
  | NInf, _ | _, NInf => NInf
  end.

Definition dsub (a b : double) : double := dadd a (dneg b).

(** [a ** 2]: OverflowError when a finite [a] has a square that overflows;
    the square of an infinity is an infinity. *)
Definition pow_two (a : double) : result double :=
  match a with
  | Fin q =>
      if Qle_bool overflow_threshold (q * q) then Raise OverflowError
      else Ok (Fin (q * q))
  | PInf | NInf => Ok PInf
  | NaN => Ok NaN
  end.

(** [s ** 0.5 > b] for [s >= 0] and a finite [b], decided on the exact
    values. *)
Definition pow_half_gt (s : double) (b : Q) : bool :=
  match s with
  | Fin q => if Qltb b 0 then true else Qltb (b * b) q
  | PInf | NInf => true
  | NaN => false
  end.

(** [a // b] on floats, for a finite [b > 0]: the floor of the quotient, a
    float; nan when [a] is not finite. *)
Definition floordiv (a : double) (b : Q) : double :=
  match a with
  | Fin q => Fin (inject_Z (Qfloor (q / b)))
  | PInf | NInf | NaN => NaN
  end.

(** [int(a)]: truncation towards zero; OverflowError on an infinity and
    ValueError on nan. *)
Definition int (a : double) : result Z :=
  match a with
  | Fin q => Ok (Z.quot (Qnum q) (Z.pos (Qden q)))
  | PInf | NInf => Raise OverflowError
  | NaN => Raise ValueError
  end.

(** A number is an [int] or a [float]; comparisons go by value. *)
Inductive num : Type :=
| Int (z : Z)
| Float (d : double).

Definition value (n : num) : double :=
  match n with
  | Int z => of_int z
  | Float d => d
  end.

Definition neg (n : num) : num :=
  match n with
  | Int z => Int (- z)
  | Float d => Float (dneg d)
  end.

(** [min(a, b)]: [b] replaces [a] only when [b < a]. *)
Definition min (a b : num) : num :=
  if dlt (value b) (value a) then b else a.

(** [max(a, b)]: [b] replaces [a] only when [b > a]. *)
Definition max (a b : num) : num :=
  if dlt (value a) (value b) then b else a.

(** [a, b, c = l]: unpacking a list of any other length is a ValueError. *)
Definition unpack3 {A : Type} (l : list A) : result (A * A * A) :=
  match l with
  | [a; b; c] => Ok (a, b, c)
  | _ => Raise ValueError
  end.

End Py.

Import Py.

Notation "x <- c ;; k" := (bind c (fun x => k))
  (at level 61, c at next level, right associativity).
Notation "' p <- c ;; k" := (bind c (fun x => let 'p := x in k))
  (at level 61, p pattern, c at next level, right associativity).

Infix "<?" := Qltb (at level 70, no associativity) : Q_scope.

(** ** The part of [re] that the pattern uses *)

Module Re.

(** A pattern is a sequence of literal texts and capturing groups of the
    form [([class]+)]. *)
Inductive item : Type :=
| Lit (p : string)
| Group (cls : ascii -> bool).

Fixpoint strip_prefix (p s : string) : option string :=
  match p with
  | EmptyString => Some s
  | String a p' =>
      match s with
      | String b s' => if Ascii.eqb a b then strip_prefix p' s' else None
      | EmptyString => None
      end
  end.

(** [plus cls k acc s]: the group has consumed [acc] and takes at least
    one more character of [s].  The repetition is greedy: a longer group is
    tried first, and the matcher backs off one character at a time while
    the rest of the pattern, [k], fails. *)
Fixpoint plus (cls : ascii -> bool) (k : string -> option (list string))
  (acc s : string) : option (list string) :=
  match s with
  | EmptyString => None
  | String c s' =>
      if cls c then
        let acc' := (acc ++ String c "")%string in
        match plus cls k acc' s' with
        | Some groups => Some groups
        | None => option_map (cons acc') (k s')
        end
      else None
  end.

(** [re.match]: anchored at the start of the string only; the result is
    the list of captured groups. *)
Fixpoint match_ (items : list item) (s : string) : option (list string) :=
  match items with
  | [] => Some []
  | Lit p :: rest =>
      match strip_prefix p s with
      | Some s' => match_ rest s'
      | None => None
      end
  | Group cls :: rest => plus cls (match_ rest) "" s
  end.

(** [\d] *)
Definition digit (c : ascii) : bool :=
  (48 <=? nat_of_ascii c)%nat && (nat_of_ascii c <=? 57)%nat.

(** [\w] *)
Definition word (c : ascii) : bool :=
  let n := nat_of_ascii c in
  digit c
  || ((65 <=? n)%nat && (n <=? 90)%nat)
  || ((97 <=? n)%nat && (n <=? 122)%nat)
  || Ascii.eqb c "_".

End Re.

(** ** [float] and [str.split] *)

Module Str.

Definition digit_value (c : ascii) : Z := Z.of_nat (nat_of_ascii c) - 48.

(** Reads a run of decimal digits: the number read after [acc], the count
    of digits after [n], and the unread rest. *)
Fixpoint digits (s : string) (acc : Z) (n : nat) : Z * nat * string :=
  match s with
  | String c s' =>
      if Re.digit c then digits s' (10 * acc + digit_value c)%Z (S n)
      else (acc, n, s)
  | EmptyString => (acc, n, s)
  end.

(** The unsigned part of a float literal: digits with at most one ['.']
    and at least one digit. *)
Definition decimal (body : string) : result Q :=
  let '(i, n1, rest) := digits body 0%Z 0%nat in
  let '(m, n2, rest') :=
    match rest with
    | String c r => if Ascii.eqb c "." then digits r i 0%nat
                    else (i, 0%nat, rest)
    | EmptyString => (i, 0%nat, rest)
    end in
  match rest' with
  | EmptyString =>
      if (n1 + n2 =? 0)%nat then Raise ValueError
      else Ok (Qmake m (Z.to_pos (10 ^ Z.of_nat n2)))
  | String _ _ => Raise ValueError
  end.

(** [float(s)] on the texts the pattern can capture (characters among
    ['-'], ['.'], [','] and digits): an optional ['-'] and an unsigned
    part, the value an infinity when it overflows.  Anything else is a
    ValueError. *)
Definition float (s : string) : result double :=
  match s with
  | String c s' =>
      if Ascii.eqb c "-" then
        bind (decimal s') (fun q => Ok (dneg (of_exact q)))
      else bind (decimal s) (fun q => Ok (of_exact q))
  | EmptyString => bind (decimal s) (fun q => Ok (of_exact q))
  end.

(** [s.split(',')] *)
Fixpoint split_comma (s : string) : list string :=
  match s with
  | EmptyString => [EmptyString]
  | String c s' =>
      if Ascii.eqb c "," then EmptyString :: split_comma s'
      else
        match split_comma s' with
        | piece :: pieces => String c piece :: pieces
        | [] => [String c EmptyString]
        end
  end.

End Str.

(** ** The telemetry dictionary *)

Record telemetry_record : Type := mkTelemetry {
  x : double;
  y : double;
  battery : double;
  gyro : list double;
  wind : double;
  dust : double;
  sensor : string
}.

(** ** check_crash *)

Definition check_crash (parsed : telemetry_record) : result bool :=
  if dle (battery parsed) (of_int 0) then Ok true
  else
    let y := y parsed in
    let sensor := sensor parsed in
    if String.eqb sensor "RED" && dlt (of_int 3) y then Ok true
    else if String.eqb sensor "YELLOW" && dlt (of_int 1000) y then Ok true
    else if dlt y (of_int 0) then Ok true
    else if dlt (Fin 100000) (dabs (x parsed)) then Ok true
    else
      '(gx, gy, gz) <- unpack3 (gyro parsed) ;;
      gx2 <- pow_two gx ;;
      gy2 <- pow_two gy ;;
      let sum := dadd gx2 gy2 in
      gz2 <- pow_two gz ;;
      let tilt_sq := dadd sum gz2 in
      if pow_half_gt tilt_sq 1 then Ok true else Ok false.

(** ** parse_telemetry *)

Definition signed_class (c : ascii) : bool :=
  Ascii.eqb c "-" || Re.digit c || Ascii.eqb c ".".

Definition unsigned_class (c : ascii) : bool :=
  Re.digit c || Ascii.eqb c ".".

Definition gyro_class (c : ascii) : bool :=
  Ascii.eqb c "-" || Re.digit c || Ascii.eqb c "." || Ascii.eqb c ",".

(** [X-([-\d.]+)-Y-([-\d.]+)-BAT-([\d.]+)-GYR-\[([-\d.,]+)\]-WIND-([\d.]+)-DUST-([\d.]+)-SENS-(\w+)] *)
Definition pattern : list Re.item :=
  [ Re.Lit "X-"; Re.Group signed_class;
    Re.Lit "-Y-"; Re.Group signed_class;
    Re.Lit "-BAT-"; Re.Group unsigned_class;
    Re.Lit "-GYR-["; Re.Group gyro_class;
    Re.Lit "]-WIND-"; Re.Group unsigned_class;
    Re.Lit "-DUST-"; Re.Group unsigned_class;
    Re.Lit "-SENS-"; Re.Group Re.word ].

(** The body of the [try] block, on the seven captured groups. *)
Definition build_record (g1 g2 g3 g4 g5 g6 g7 : string)
  : result telemetry_record :=
  x <- Str.float g1 ;;
  y <- Str.float g2 ;;
  bat <- Str.float g3 ;;
  gyr <- map_result Str.float (Str.split_comma g4) ;;
  wind <- Str.float g5 ;;
  dust <- Str.float g6 ;;
  let sensor := g7 in
  Ok (mkTelemetry x y bat gyr wind dust sensor).

Definition parse_telemetry (telemetry_str : string) : option telemetry_record :=
  match Re.match_ pattern telemetry_str with
  | Some [g1; g2; g3; g4; g5; g6; g7] =>
      match build_record g1 g2 g3 g4 g5 g6 g7 with
      | Ok parsed => Some parsed
      | Raise _ => None
      end
  | _ => None
  end.

(** ** drone_control *)

(** The two values of [current_movement], ['fwd'] and ['rev']. *)
Inductive direction : Type :=
| fwd
| rev.

(** The variables that live across iterations of the [while] loop.
    [target_altitude] is assigned on every iteration before it is read, so it
    is local to the loop body. *)
Record state : Type := mkState {
  current_movement : direction;
  speed : Z
}.

Definition initial_state : state := mkState fwd 3.

Module Command.
Record t : Type := mk {
  speed : Z;
  altitude : num;
  movement : direction
}.
End Command.

(** One pass through the loop body after the crash check: from the unpacking
    of the telemetry to the command that is sent. *)
Definition control_step (st : state) (parsed : telemetry_record)
  : result (state * Command.t) :=
  let sensor_status := sensor parsed in
  let current_y := y parsed in
  let current_x := x parsed in
  let battery := battery parsed in
  '(gx, gy, gz) <- unpack3 (gyro parsed) ;;
  let target_altitude :=
    if String.eqb sensor_status "RED" then 2%Z
    else if String.eqb sensor_status "YELLOW" then 999%Z
    else 2000%Z in
  let delta_y := dsub (of_int target_altitude) current_y in
  let max_delta :=
    Py.max (Int 10) (Py.min (Int 100) (Float (floordiv (dabs delta_y) 2))) in
  truncated <- int delta_y ;;
  let altitude_cmd :=
    Py.max (neg max_delta) (Py.min max_delta (Int truncated)) in
  let altitude_cmd :=
    if dlt (dabs delta_y) (of_int 10) then Int 0 else altitude_cmd in
  let '(speed, current_movement) :=
    if dlt battery (of_int 20) then (1%Z, current_movement st)
    else if dle (Fin (8 # 10)) (dabs gx) then
      (Z.max 1 (speed st - 1),
       match current_movement st with fwd => rev | rev => fwd end)
    else if dlt (dabs gx) (Fin (1 # 2)) && dlt (of_int 20) battery then
      (Z.min 5 (speed st + 1), current_movement st)
    else (speed st, current_movement st) in
  let current_movement :=
    if dlt (of_int 90000) current_x then rev
    else if dlt current_x (of_int (-90000)) then fwd
    else current_movement in
  Ok (mkState current_movement speed,
      Command.mk speed altitude_cmd current_movement).

(** A decoded server response: [data['status']] and [data['telemetry']]. *)
Record data : Type := mkData {
  status : string;
  telemetry : string
}.

(** Why the [while] loop ended. *)
Inductive stop : Type :=
| ServerCrashed
| CrashCondition
| Unexpected (e : exn)
| ConnectionClosed.

(** The [while True] loop over the responses the server sends before it
    closes the connection.  The result lists, for every command sent, the
    loop variables after that iteration and the command. *)
Fixpoint drone_control_loop (st : state) (inbox : list data)
  : list (state * Command.t) * stop :=
  match inbox with
  | [] => ([], ConnectionClosed)
  | d :: inbox' =>
      if String.eqb (status d) "crashed" then ([], ServerCrashed)
      else
        match parse_telemetry (telemetry d) with
        | None => drone_control_loop st inbox'
        | Some parsed =>
            match check_crash parsed with
            | Raise e => ([], Unexpected e)
            | Ok true => ([], CrashCondition)
            | Ok false =>
                match control_step st parsed with
                | Raise e => ([], Unexpected e)
                | Ok (st', command) =>
                    let '(sent, why) := drone_control_loop st' inbox' in
                    ((st', command) :: sent, why)
                end
            end
        end
  end.

Definition drone_control (inbox : list data) : list (state * Command.t) * stop :=
  drone_control_loop initial_state inbox.

(** The comparisons of floats as propositions. *)
Notation "a '<d' b" := (dlt a b = true) (at level 70, no associativity).
Notation "a '<=d' b" := (dle a b = true) (at level 70, no associativity).

(** ** Finite floats *)

(** [d] is a finite float: a value below the overflow threshold in
    magnitude. *)
Definition finite (d : double) : Prop :=
  exists q : Q, d = Fin q /\ Qabs q < overflow_threshold.

(** [n] copies of the digit 9: a text that [float] reads as an infinity when
    it is long enough. *)
Fixpoint nines (n : nat) : string :=
  match n with
  | O => EmptyString
  | S n' => String "9" (nines n')
  end.

(** No numeric entry of the record is nan. *)
Definition nan_free (r : telemetry_record) : Prop :=
  x r <> NaN /\ y r <> NaN /\ battery r <> NaN /\ ~ In NaN (gyro r)
  /\ wind r <> NaN /\ dust r <> NaN.

(** The record whose numeric entries are the finite values given. *)
Definition finite_record (xq yq bq : Q) (gs : list Q) (wq dq : Q)
  (s : string) : telemetry_record :=
  mkTelemetry (Fin xq) (Fin yq) (Fin bq) (map Fin gs) (Fin wq) (Fin dq) s.

(** ** The crash conditions as the specification lists them *)

(** The tilt magnitude, the Euclidean norm of the three gyro components. *)
Definition tilt_magnitude (gx gy gz : Q) : R :=
  sqrt (Q2R gx ^ 2 + Q2R gy ^ 2 + Q2R gz ^ 2).





(** ** The altitude command as the specification states it *)

(** [clamp v lo hi]: [v] brought into the interval from [lo] to [hi]. *)
Definition clamp (v lo hi : Q) : Q :=
  if v <? lo then lo else if hi <? v then hi else v.

(** Truncation towards zero: the floor of a non-negative number, the
    ceiling of a negative one. *)
Definition truncate (q : Q) : Z :=
  if Qle_bool 0 q then Qfloor q else Qceiling q.

Definition target_of_sensor (s : string) : Q :=
  if String.eqb s "RED" then 2
  else if String.eqb s "YELLOW" then 999
  else 2000.

Definition altitude_spec (s : string) (y : Q) : Q :=
  let delta_y := target_of_sensor s - y in
  let max_delta := clamp (inject_Z (Qfloor (Qabs delta_y / 2))) 10 100 in
  if Qabs delta_y <? 10 then 0
  else clamp (inject_Z (truncate delta_y)) (- max_delta) max_delta.

(** The movement after the lateral override, from the movement the tilt
    branch left. *)
Definition lateral_override (current_x : double) (m : direction) : direction :=
  if dlt (of_int 90000) current_x then rev
  else if dlt current_x (of_int (-90000)) then fwd
  else m.

(** The loop body iterated over [records], from the variables [st]: the
    commands sent, with the variables after each, until the records run out
    or the loop body raises. *)
Fixpoint control_steps (st : state) (records : list telemetry_record)
  : list (state * Command.t) * option exn :=
  match records with
  | [] => ([], None)
  | r :: records' =>
      match control_step st r with
      | Raise e => ([], Some e)
      | Ok (st', command) =>
          let '(sent, e) := control_steps st' records' in
          ((st', command) :: sent, e)
      end
  end.

(** The speed kept after an iteration is within 1..5 and is the one sent. *)
Definition speed_in_domain (p : state * Command.t) : Prop :=
  (1 <= speed (fst p) <= 5)%Z /\ Command.speed (snd p) = speed (fst p).

(** ** The telemetry grammar as the specification states it *)

Fixpoint all_in (cls : ascii -> bool) (s : string) : bool :=
  match s with
  | EmptyString => true
  | String c s' => cls c && all_in cls s'
  end.

(** [s] is empty or starts with a character outside the class. *)
Definition starts_outside (cls : ascii -> bool) (s : string) : bool :=
  match s with
  | EmptyString => true
  | String c _ => negb (cls c)
  end.

(** The text of one group: not empty and within the class. *)
Definition group_text (cls : ascii -> bool) (s : string) : Prop :=
  s <> EmptyString /\ all_in cls s = true.

(** An unsigned float text: digits and ['.'] only, and [float] reads it. *)
Definition is_decimal (d : string) : bool :=
  all_in unsigned_class d
  && match Str.float d with Ok _ => true | Raise _ => false end.

Definition float_value (d : string) : double :=
  match Str.float d with
  | Ok v => v
  | Raise _ => Fin 0
  end.

(** A float text with its optional leading ['-'], and the number it
    denotes. *)
Definition signed_text (f : bool * string) : string :=
  if fst f then String "-" (snd f) else snd f.

Definition signed_value (f : bool * string) : double :=
  if fst f then dneg (float_value (snd f)) else float_value (snd f).

(** A token: one or more word characters. *)
Definition is_token (t : string) : bool :=
  all_in Re.word t && negb (String.eqb t "").

Fixpoint join_comma (ts : list string) : string :=
  match ts with
  | [] => ""
  | [t] => t
  | t :: ts' => t ++ String "," (join_comma ts')
  end.

(** [X-<float>-Y-<float>-BAT-<float>-GYR-[<float>,...]-WIND-<float>-DUST-<float>-SENS-<token>],
    followed by [trail]. *)
Definition telemetry_text (tx ty tb : string) (tg : list string)
  (tw td tok trail : string) : string :=
  ("X-" ++ tx ++ "-Y-" ++ ty ++ "-BAT-" ++ tb ++ "-GYR-[" ++ join_comma tg
   ++ "]-WIND-" ++ tw ++ "-DUST-" ++ td ++ "-SENS-" ++ tok ++ trail)%string.

(** ** Notions used by the further properties *)



(** The computation ends in an exception. *)
Definition raises {A : Type} (c : result A) : Prop :=
  exists e : exn, c = Raise e.

(** The other value of [current_movement]. *)
Definition flipped (m : direction) : direction :=
  match m with
  | fwd => rev
  | rev => fwd
  end.

(** Lines 100 to 107 of the source: the speed and the movement after the
    battery and tilt tests. *)
Definition speed_movement (st : state) (battery gx : double)
  : Z * direction :=
  if dlt battery (of_int 20) then (1%Z, current_movement st)
  else if dle (Fin (8 # 10)) (dabs gx) then
    (Z.max 1 (speed st - 1), flipped (current_movement st))
  else if dlt (dabs gx) (Fin (1 # 2)) && dlt (of_int 20) battery then
    (Z.min 5 (speed st + 1), current_movement st)
  else (speed st, current_movement st).

(** [delta_y] of the loop body. *)
Definition delta_of (r : telemetry_record) : double :=
  dsub (Fin (target_of_sensor (sensor r))) (y r).

(** The tests of [check_crash] that come before the unpacking of the gyro
    list. *)
Definition crashed_before_unpack (r : telemetry_record) : bool :=
  dle (battery r) (of_int 0)
  || (String.eqb (sensor r) "RED" && dlt (of_int 3) (y r))
  || (String.eqb (sensor r) "YELLOW" && dlt (of_int 1000) (y r))
  || dlt (y r) (of_int 0)
  || dlt (Fin 100000) (dabs (x r)).

(** A finite float whose square overflows. *)
Definition square_overflows (d : double) : Prop :=
  exists q : Q, d = Fin q /\ overflow_threshold <= q * q.

(** A record on which the loop body raises the speed: not crashed, with a
    finite altitude, battery above 20, first gyro component below 0.5 in
    magnitude. *)
Definition calm (r : telemetry_record) : Prop :=
  check_crash r = Ok false
  /\ finite (y r)
  /\ dlt (of_int 20) (battery r) = true
  /\ exists gx gy gz : double,
       gyro r = [gx; gy; gz] /\ dlt (dabs gx) (Fin (1 # 2)) = true.

(** The loop variables after the last command sent, [st] if none was. *)
Definition last_state (st : state) (sent : list (state * Command.t)) : state :=
  last (map fst sent) st.

(** The responses the loop does not skip: a crashed status, or a telemetry
    that decodes. *)
Definition not_skipped (d : data) : bool :=
  String.eqb (status d) "crashed"
  || match parse_telemetry (telemetry d) with
     | Some _ => true
     | None => false
     end.

(** The response [d] is one the loop passes to the loop body: its status is
    not crashed, its telemetry decodes to [r], and [r] is not crashed. *)
Definition answered (d : data) (r : telemetry_record) : Prop :=
  String.eqb (status d) "crashed" = false
  /\ parse_telemetry (telemetry d) = Some r
  /\ check_crash r = Ok false.

(** How the loop ends when the loop body has run as [control_steps] says. *)
Definition stop_of (e : option exn) : stop :=
  match e with
  | None => ConnectionClosed
  | Some e => Unexpected e
  end.


(** * Properties *)

(** ** Comparisons *)

Lemma Qltb_lt (a b : Q) : (a <? b) = true <-> a < b.
Proof.
  unfold Qltb. rewrite negb_true_iff.
  split; intro H.
  - apply Qnot_le_lt. intro Hle. apply Qle_bool_iff in Hle. congruence.
  - destruct (Qle_bool b a) eqn:E; [|reflexivity].
    apply Qle_bool_iff in E. exfalso. exact (Qlt_not_le _ _ H E).
Qed.

Lemma Qltb_ge (a b : Q) : (a <? b) = false <-> b <= a.
Proof.
  unfold Qltb. rewrite negb_false_iff. apply Qle_bool_iff.
Qed.

Lemma Qle_bool_gt (a b : Q) : Qle_bool a b = false <-> b < a.
Proof.
  rewrite <- Qltb_lt. unfold Qltb. rewrite negb_true_iff. reflexivity.
Qed.

Ltac reflect_tests :=
  repeat match goal with
  | H : Qle_bool _ _ = true |- _ => apply Qle_bool_iff in H
  | H : Qle_bool _ _ = false |- _ => apply Qle_bool_gt in H
  | H : (_ <? _) = true |- _ => apply Qltb_lt in H
  | H : (_ <? _) = false |- _ => apply Qltb_ge in H
  | H : String.eqb _ _ = true |- _ => apply String.eqb_eq in H
  | H : String.eqb _ _ = false |- _ => apply String.eqb_neq in H
  | H : _ && _ = true |- _ => apply andb_true_iff in H; destruct H
  end.

(** ** Overflow *)

Lemma threshold_pos : 0 < overflow_threshold.
Proof. reflexivity. Qed.

Lemma threshold_above_targets : 100000 < overflow_threshold.
Proof. reflexivity. Qed.



(** A result below the threshold in magnitude is held as it is. *)
Lemma of_exact_fin (q : Q) :
  Qabs q < overflow_threshold -> of_exact q = Fin q.
Proof.
  intro H. apply Qabs_Qlt_condition in H. destruct H as [Hl Hu].
  unfold of_exact.
  assert (E1 : Qle_bool overflow_threshold q = false)
    by (apply Qle_bool_gt; exact Hu).
  assert (E2 : Qle_bool q (- overflow_threshold) = false)
    by (apply Qle_bool_gt; exact Hl).
  rewrite E1, E2. reflexivity.
Qed.

(** [of_exact] gives a finite float only for such a result. *)
Lemma of_exact_fin_inv (q d : Q) :
  of_exact q = Fin d -> d = q /\ Qabs q < overflow_threshold.
Proof.
  unfold of_exact.
  destruct (Qle_bool overflow_threshold q) eqn:E1; [discriminate|].
  destruct (Qle_bool q (- overflow_threshold)) eqn:E2; [discriminate|].
  intro H. injection H as <-. split; [reflexivity|].
  reflect_tests. apply Qabs_Qlt_condition. split; assumption.
Qed.

Lemma of_exact_not_nan (q : Q) : of_exact q <> NaN.
Proof.
  unfold of_exact.
  destruct (Qle_bool overflow_threshold q); [discriminate|].
  destruct (Qle_bool q (- overflow_threshold)); discriminate.
Qed.

Lemma of_exact_nonneg (q : Q) : 0 <= q -> dle (of_int 0) (of_exact q) = true.
Proof.
  intro H. unfold of_exact.
  destruct (Qle_bool overflow_threshold q); [reflexivity|].
  destruct (Qle_bool q (- overflow_threshold)) eqn:E.
  - reflect_tests. pose proof threshold_pos. lra.
  - cbn. apply Qle_bool_iff. exact H.
Qed.


Lemma square_nonneg (q : Q) : 0 <= q * q.
Proof. nra. Qed.

Lemma square_le_one (q : Q) : q * q <= 1 -> Qabs q <= 1.
Proof.
  intro H. apply Qabs_Qle_condition. split; nra.
Qed.


(** ** check_crash *)


Lemma pow_half_gt_one (s : Q) : pow_half_gt (Fin s) 1 = (1 <? s).
Proof.
  unfold pow_half_gt, Qltb. simpl.
  unfold Qle_bool. simpl. rewrite !Z.mul_1_r. reflexivity.
Qed.





Lemma tilt_sq_le (gx gy gz b : Q) :
  gx * gx + gy * gy + gz * gz <= b ->
  0 <= b ->
  (tilt_magnitude gx gy gz <= sqrt (Q2R b))%R.
Proof.
  intros H Hb. unfold tilt_magnitude. apply sqrt_le_1_alt.
  replace (Q2R gx ^ 2 + Q2R gy ^ 2 + Q2R gz ^ 2)%R
    with (Q2R (gx * gx + gy * gy + gz * gz))
    by (rewrite !Q2R_plus, !Q2R_mult; ring).
  apply Qle_Rle, H.
Qed.





(** ** The altitude command *)

Lemma clamp_compat (v v' lo lo' hi hi' : Q) :
  v == v' -> lo == lo' -> hi == hi' -> clamp v lo hi == clamp v' lo' hi'.
Proof.
  intros Hv Hlo Hhi. unfold clamp.
  destruct (v <? lo) eqn:E1, (v' <? lo') eqn:E2,
    (hi <? v) eqn:E3, (hi' <? v') eqn:E4;
    reflect_tests; lra.
Qed.

Lemma clamp_bounds (v lo hi : Q) : lo <= hi -> lo <= clamp v lo hi <= hi.
Proof.
  intro H. unfold clamp.
  destruct (v <? lo) eqn:E1, (hi <? v) eqn:E2; reflect_tests; lra.
Qed.

Lemma clamp_cases (v lo hi : Q) :
  lo <= hi ->
  (v < lo /\ clamp v lo hi = lo)
  \/ (hi < v /\ clamp v lo hi = hi)
  \/ (lo <= v <= hi /\ clamp v lo hi = v).
Proof.
  intro H. unfold clamp.
  destruct (v <? lo) eqn:E1; reflect_tests; [left; split; auto|].
  destruct (hi <? v) eqn:E2; reflect_tests; [right; left; split; auto|].
  right; right. repeat split; assumption.
Qed.

Lemma value_neg (n : num) (q : Q) :
  value n = Fin q -> exists q' : Q, value (neg n) = Fin q' /\ q' == - q.
Proof.
  destruct n as [z|d]; cbn.
  - intro H. injection H as <-. exists (inject_Z (- z)).
    split; [reflexivity|]. rewrite inject_Z_opp. reflexivity.
  - intros ->. exists (- q). split; reflexivity.
Qed.

(** Python's [max(lo, min(hi, v))] on finite numbers is the clamp when
    [lo <= hi]. *)
Lemma max_min_clamp (lo hi v : num) (l h x : Q) :
  value lo = Fin l -> value hi = Fin h -> value v = Fin x ->
  l <= h ->
  exists m : Q,
    value (Py.max lo (Py.min hi v)) = Fin m /\ m == clamp x l h.
Proof.
  intros Hlo Hhi Hv Hle. unfold Py.max, Py.min, clamp.
  rewrite Hv, Hhi. cbn [dlt].
  destruct (x <? h) eqn:E1.
  - rewrite Hlo, Hv. cbn [dlt].
    destruct (l <? x) eqn:E2.
    + exists x. split; [exact Hv|].
      destruct (x <? l) eqn:E3, (h <? x) eqn:E4; reflect_tests; lra.
    + exists l. split; [exact Hlo|].
      destruct (x <? l) eqn:E3, (h <? x) eqn:E4; reflect_tests; lra.
  - rewrite Hlo, Hhi. cbn [dlt].
    destruct (l <? h) eqn:E2.
    + exists h. split; [exact Hhi|].
      destruct (x <? l) eqn:E3, (h <? x) eqn:E4; reflect_tests; lra.
    + exists l. split; [exact Hlo|].
      destruct (x <? l) eqn:E3, (h <? x) eqn:E4; reflect_tests; lra.
Qed.

(** [int] on a finite float is the truncation towards zero. *)
Lemma int_truncate (q : Q) : int (Fin q) = Ok (truncate q).
Proof.
  destruct q as [n d]. unfold int, truncate, Qle_bool, Qceiling, Qfloor.
  simpl. rewrite Z.mul_1_r. f_equal.
  destruct (0 <=? n)%Z eqn:E.
  - apply Z.leb_le in E. apply Z.quot_div_nonneg; lia.
  - apply Z.leb_gt in E.
    rewrite <- (Z.opp_involutive n) at 1.
    rewrite Z.quot_opp_l by lia.
    rewrite Z.quot_div_nonneg by lia. reflexivity.
Qed.

Lemma target_of_sensor_inject (s : string) :
  inject_Z (if String.eqb s "RED" then 2
            else if String.eqb s "YELLOW" then 999 else 2000)
  = target_of_sensor s.
Proof.
  unfold target_of_sensor.
  destruct (String.eqb s "RED"); [reflexivity|].
  destruct (String.eqb s "YELLOW"); reflexivity.
Qed.

Lemma target_of_sensor_range (s : string) : 2 <= target_of_sensor s <= 2000.
Proof.
  unfold target_of_sensor.
  destruct (String.eqb s "RED"); [split; discriminate|].
  destruct (String.eqb s "YELLOW"); split; discriminate.
Qed.

(** The altitude computed by the loop body from a finite [delta_y], by
    value. *)
Lemma altitude_cmd_value (s : string) (yq : Q) :
  let d := target_of_sensor s - yq in
  let max_delta :=
    Py.max (Int 10)
      (Py.min (Int 100) (Float (floordiv (dabs (Fin d)) 2))) in
  let alt :=
    if dlt (dabs (Fin d)) (of_int 10) then Int 0
    else Py.max (neg max_delta) (Py.min max_delta (Int (truncate d))) in
  exists a : Q,
    value alt = Fin a
    /\ a == altitude_spec s yq
    /\ (Qabs d < 10 -> alt = Int 0).
Proof.
  intros d max_delta alt. unfold alt, altitude_spec. fold d.
  cbn [dabs dlt of_int]. change (inject_Z 10) with 10.
  destruct (Qabs d <? 10) eqn:E.
  - exists 0. repeat split.
  - destruct (max_min_clamp (Int 10) (Int 100)
                (Float (floordiv (dabs (Fin d)) 2)) 10 100
                (inject_Z (Qfloor (Qabs d / 2))))
      as (m & Hm & Hmq); try reflexivity; [discriminate|].
    fold max_delta in Hm.
    assert (Hlo : 10 <= m).
    { rewrite Hmq. apply clamp_bounds. discriminate. }
    destruct (value_neg max_delta m Hm) as (m' & Hm' & Hmq').
    destruct (max_min_clamp (neg max_delta) max_delta (Int (truncate d))
                m' m (inject_Z (truncate d)) Hm' Hm eq_refl)
      as (a & Ha & Haq); [lra|].
    exists a. split; [exact Ha|]. split.
    + rewrite Haq. apply clamp_compat; [reflexivity | |exact Hmq].
      rewrite Hmq', Hmq. reflexivity.
    + intro H. reflect_tests. lra.
Qed.

(** ** The loop body on a finite altitude *)

Lemma unpack3_raises {A : Type} (l : list A) :
  (exists a b c : A, l = [a; b; c] /\ unpack3 l = Ok (a, b, c))
  \/ (List.length l <> 3%nat /\ unpack3 l = Raise ValueError).
Proof.
  destruct l as [|a [|b [|c [|d l]]]]; cbn;
    try (right; split; [discriminate | reflexivity]).
  left. exists a, b, c. split; reflexivity.
Qed.

(** [int(delta_y)] returns exactly when the altitude is finite and the
    difference does not overflow. *)
Lemma int_delta_ok (t : Q) (yd : double) (z : Z) :
  int (dsub (Fin t) yd) = Ok z ->
  exists yq : Q, yd = Fin yq /\ Qabs (t - yq) < overflow_threshold.
Proof.
  destruct yd as [yq| | |]; cbn; try discriminate.
  destruct (of_exact (t + - yq)) as [d| | |] eqn:E; cbn; try discriminate.
  intros _. exists yq. split; [reflexivity|].
  exact (proj2 (of_exact_fin_inv _ _ E)).
Qed.

Lemma int_delta_raises (t : Q) (yd : double) (e : exn) :
  int (dsub (Fin t) yd) = Raise e ->
  (e = OverflowError /\ (dsub (Fin t) yd = PInf \/ dsub (Fin t) yd = NInf))
  \/ (e = ValueError /\ yd = NaN).
Proof.
  destruct yd as [yq| | |]; cbn.
  - destruct (of_exact (t + - yq)) as [d| | |] eqn:E; cbn; try discriminate.
    + intro H. injection H as <-. left. split; [reflexivity|left; reflexivity].
    + intro H. injection H as <-. left. split; [reflexivity|right; reflexivity].
    + exfalso. exact (of_exact_not_nan _ E).
  - intro H. injection H as <-. left. split; [reflexivity|right; reflexivity].
  - intro H. injection H as <-. left. split; [reflexivity|left; reflexivity].
  - intro H. injection H as <-. right. split; reflexivity.
Qed.

(** [delta_y] when the altitude is finite and the difference does not
    overflow. *)
Lemma delta_fin (s : string) (yq : Q) :
  Qabs (target_of_sensor s - yq) < overflow_threshold ->
  dsub
    (of_int (if String.eqb s "RED" then 2
             else if String.eqb s "YELLOW" then 999 else 2000))
    (Fin yq)
  = Fin (target_of_sensor s - yq).
Proof.
  intro H. unfold of_int. rewrite target_of_sensor_inject.
  unfold dsub. cbn [dneg dadd].
  change (target_of_sensor s + - yq) with (target_of_sensor s - yq).
  apply of_exact_fin, H.
Qed.

(** The loop body in closed form when the gyro list has three entries, the
    altitude is finite and [delta_y] does not overflow. *)
Lemma control_step_ok (st : state) (r : telemetry_record)
  (gx gy gz : double) (yq : Q) :
  gyro r = [gx; gy; gz] ->
  y r = Fin yq ->
  Qabs (target_of_sensor (sensor r) - yq) < overflow_threshold ->
  exists (alt : num) (a : Q),
    control_step st r
    = Ok (mkState
            (lateral_override (x r)
               (snd (speed_movement st (battery r) gx)))
            (fst (speed_movement st (battery r) gx)),
          Command.mk (fst (speed_movement st (battery r) gx)) alt
            (lateral_override (x r)
               (snd (speed_movement st (battery r) gx))))
    /\ value alt = Fin a
    /\ a == altitude_spec (sensor r) yq
    /\ (Qabs (target_of_sensor (sensor r) - yq) < 10 -> alt = Int 0).
Proof.
  intros Hg Hy Hd.
  destruct (altitude_cmd_value (sensor r) yq) as (a & Ha & Haq & Hdead).
  unfold control_step. rewrite Hg, Hy. cbn [unpack3 bind].
  rewrite !(delta_fin _ _ Hd), int_truncate. cbn [bind].
  unfold speed_movement, lateral_override, flipped.
  destruct (dlt (battery r) (of_int 20));
    [|destruct (dle (Fin (8 # 10)) (dabs gx));
      [|destruct (dlt (dabs gx) (Fin (1 # 2)) && dlt (of_int 20) (battery r))]];
    (eexists; exists a; split; [reflexivity|]);
    (split; [exact Ha|]); (split; [exact Haq | exact Hdead]).
Qed.

(** When the loop body returns, the gyro list has three entries, the altitude
    is finite and [delta_y] has not overflowed. *)
Lemma control_step_ok_inv (st st' : state) (r : telemetry_record)
  (c : Command.t) :
  control_step st r = Ok (st', c) ->
  exists (gx gy gz : double) (yq : Q),
    gyro r = [gx; gy; gz]
    /\ y r = Fin yq
    /\ Qabs (target_of_sensor (sensor r) - yq) < overflow_threshold.
Proof.
  unfold control_step. intro H.
  destruct (unpack3_raises (gyro r)) as [(gx & gy & gz & Hg & Hu)|[_ Hu]];
    rewrite Hu in H; cbn [bind] in H; [|discriminate H].
  unfold of_int at 1 2 in H. rewrite target_of_sensor_inject in H.
  destruct (int (dsub (Fin (target_of_sensor (sensor r))) (y r)))
    as [z|e] eqn:Hint; [|discriminate H].
  destruct (int_delta_ok _ _ _ Hint) as (yq & Hy & Hd).
  exists gx, gy, gz, yq. repeat split; assumption.
Qed.

(** A returned command is the one of the closed form. *)
Lemma control_step_ok_shape (st st' : state) (r : telemetry_record)
  (c : Command.t) :
  control_step st r = Ok (st', c) ->
  exists (gx gy gz : double) (yq : Q) (alt : num) (a : Q),
    gyro r = [gx; gy; gz]
    /\ y r = Fin yq
    /\ Qabs (target_of_sensor (sensor r) - yq) < overflow_threshold
    /\ st' = mkState
               (lateral_override (x r)
                  (snd (speed_movement st (battery r) gx)))
               (fst (speed_movement st (battery r) gx))
    /\ c = Command.mk (fst (speed_movement st (battery r) gx)) alt
             (lateral_override (x r)
                (snd (speed_movement st (battery r) gx)))
    /\ value alt = Fin a
    /\ a == altitude_spec (sensor r) yq
    /\ (Qabs (target_of_sensor (sensor r) - yq) < 10 -> alt = Int 0).
Proof.
  intro H.
  destruct (control_step_ok_inv st st' r c H)
    as (gx & gy & gz & yq & Hg & Hy & Hd).
  destruct (control_step_ok st r gx gy gz yq Hg Hy Hd)
    as (alt & a & Hstep & Ha & Haq & Hdead).
  rewrite H in Hstep. injection Hstep as -> ->.
  exists gx, gy, gz, yq, alt, a. repeat split; assumption.
Qed.

(** ** What "not crashed" gives to the loop body *)

Lemma check_crash_tests (r : telemetry_record) :
  check_crash r =
  if crashed_before_unpack r then Ok true
  else
    '(gx, gy, gz) <- unpack3 (gyro r) ;;
    gx2 <- pow_two gx ;;
    gy2 <- pow_two gy ;;
    gz2 <- pow_two gz ;;
    Ok (pow_half_gt (dadd (dadd gx2 gy2) gz2) 1).
Proof.
  unfold check_crash, crashed_before_unpack.
  destruct (dle (battery r) (of_int 0)); [reflexivity|].
  destruct (String.eqb (sensor r) "RED" && dlt (of_int 3) (y r));
    [reflexivity|].
  destruct (String.eqb (sensor r) "YELLOW" && dlt (of_int 1000) (y r));
    [reflexivity|].
  destruct (dlt (y r) (of_int 0)); [reflexivity|].
  destruct (dlt (Fin 100000) (dabs (x r))); [reflexivity|].
  cbn [orb].
  destruct (unpack3 (gyro r)) as [[[gx gy] gz]|e]; cbn [bind];
    [|reflexivity].
  destruct (pow_two gx) as [gx2|e]; cbn [bind]; [|reflexivity].
  destruct (pow_two gy) as [gy2|e]; cbn [bind]; [|reflexivity].
  destruct (pow_two gz) as [gz2|e]; cbn [bind]; [|reflexivity].
  destruct (pow_half_gt (dadd (dadd gx2 gy2) gz2) 1); reflexivity.
Qed.

Lemma check_crash_false_inv (r : telemetry_record) :
  check_crash r = Ok false ->
  crashed_before_unpack r = false
  /\ exists (gx gy gz gx2 gy2 gz2 : double),
       gyro r = [gx; gy; gz]
       /\ pow_two gx = Ok gx2 /\ pow_two gy = Ok gy2 /\ pow_two gz = Ok gz2
       /\ pow_half_gt (dadd (dadd gx2 gy2) gz2) 1 = false.
Proof.
  rewrite check_crash_tests.
  destruct (crashed_before_unpack r); [discriminate|].
  intro H. split; [reflexivity|].
  destruct (unpack3_raises (gyro r)) as [(gx & gy & gz & Hg & Hu)|[_ Hu]];
    rewrite Hu in H; cbn [bind] in H; [|discriminate H].
  destruct (pow_two gx) as [gx2|e] eqn:Ex; cbn [bind] in H;
    [|discriminate H].
  destruct (pow_two gy) as [gy2|e] eqn:Ey; cbn [bind] in H;
    [|discriminate H].
  destruct (pow_two gz) as [gz2|e] eqn:Ez; cbn [bind] in H;
    [|discriminate H].
  injection H as H.
  exists gx, gy, gz, gx2, gy2, gz2. repeat split; assumption.
Qed.

Lemma check_crash_false_gyro (r : telemetry_record) :
  check_crash r = Ok false ->
  exists gx gy gz : double, gyro r = [gx; gy; gz].
Proof.
  intro H. destruct (check_crash_false_inv r H)
    as (_ & gx & gy & gz & _ & _ & _ & Hg & _).
  exists gx, gy, gz. exact Hg.
Qed.

Lemma crashed_before_unpack_false (r : telemetry_record) :
  crashed_before_unpack r = false ->
  dle (battery r) (of_int 0) = false
  /\ (String.eqb (sensor r) "RED" && dlt (of_int 3) (y r)) = false
  /\ (String.eqb (sensor r) "YELLOW" && dlt (of_int 1000) (y r)) = false
  /\ dlt (y r) (of_int 0) = false
  /\ dlt (Fin 100000) (dabs (x r)) = false.
Proof.
  unfold crashed_before_unpack. intro H.
  repeat (apply orb_false_iff in H; destruct H as [H ?]).
  repeat split; assumption.
Qed.

(** On a record that is not crashed, a finite altitude keeps [delta_y]
    finite. *)
Lemma not_crashed_delta (r : telemetry_record) (yq : Q) :
  check_crash r = Ok false ->
  y r = Fin yq ->
  Qabs yq < overflow_threshold ->
  0 <= yq
  /\ Qabs (target_of_sensor (sensor r) - yq) < overflow_threshold.
Proof.
  intros Hc Hy Hfin.
  destruct (check_crash_false_inv r Hc) as (He & _).
  destruct (crashed_before_unpack_false r He) as (_ & _ & _ & Hy0 & _).
  rewrite Hy in Hy0. cbn in Hy0. change (inject_Z 0) with 0 in Hy0.
  reflect_tests.
  split; [exact Hy0|].
  pose proof (target_of_sensor_range (sensor r)) as [Ht1 Ht2].
  pose proof threshold_above_targets.
  rewrite Qabs_pos in Hfin by exact Hy0.
  apply Qabs_Qlt_condition. split; lra.
Qed.

(** The loop body on a record that is not crashed and has a finite
    altitude. *)
Lemma not_crashed_step (st : state) (r : telemetry_record) (yq : Q) :
  check_crash r = Ok false ->
  y r = Fin yq ->
  Qabs yq < overflow_threshold ->
  exists (gx gy gz : double) (alt : num) (a : Q),
    gyro r = [gx; gy; gz]
    /\ control_step st r
       = Ok (mkState
               (lateral_override (x r)
                  (snd (speed_movement st (battery r) gx)))
               (fst (speed_movement st (battery r) gx)),
             Command.mk (fst (speed_movement st (battery r) gx)) alt
               (lateral_override (x r)
                  (snd (speed_movement st (battery r) gx))))
    /\ value alt = Fin a
    /\ a == altitude_spec (sensor r) yq
    /\ (Qabs (target_of_sensor (sensor r) - yq) < 10 -> alt = Int 0).
Proof.
  intros Hc Hy Hfin.
  destruct (check_crash_false_gyro r Hc) as (gx & gy & gz & Hg).
  destruct (not_crashed_delta r yq Hc Hy Hfin) as [_ Hd].
  destruct (control_step_ok st r gx gy gz yq Hg Hy Hd)
    as (alt & a & Hstep & Hrest).
  exists gx, gy, gz, alt, a. split; [exact Hg|]. split; assumption.
Qed.

(** On an infinite altitude [int(delta_y)] raises OverflowError and no
    command is computed. *)
Lemma control_step_infinite_y (st : state) (r : telemetry_record) :
  y r = PInf ->
  List.length (gyro r) = 3%nat ->
  control_step st r = Raise OverflowError.
Proof.
  intros Hy Hlen. unfold control_step.
  destruct (unpack3_raises (gyro r)) as [(gx & gy & gz & _ & ->)|[Hne _]];
    [|contradiction].
  rewrite Hy. reflexivity.
Qed.

(** C4, as stated, fails on an infinite altitude: an altitude text of 400
    digits is read as an infinity, the record is not crashed, and
    [int(delta_y)] raises OverflowError, so that no command is produced. *)
Lemma no_altitude_command_on_infinite_y :
  let text :=
    ("X-0-Y-" ++ nines 400
     ++ "-BAT-50-GYR-[0,0,0]-WIND-0-DUST-0-SENS-GREEN")%string in
  let r :=
    mkTelemetry (Fin 0) PInf (Fin 50) [Fin 0; Fin 0; Fin 0] (Fin 0) (Fin 0)
      "GREEN" in
  parse_telemetry text = Some r
  /\ check_crash r = Ok false
  /\ (forall st : state, control_step st r = Raise OverflowError)
  /\ ~ (forall (st : state) (r' : telemetry_record),
          check_crash r' = Ok false ->
          exists (st' : state) (c : Command.t),
            control_step st r' = Ok (st', c)).
Proof.
  intros text r.
  assert (Hc : check_crash r = Ok false) by (vm_compute; reflexivity).
  assert (Hs : forall st : state, control_step st r = Raise OverflowError)
    by (intro st; apply control_step_infinite_y; reflexivity).
  split; [vm_compute; reflexivity|]. split; [exact Hc|].
  split; [exact Hs|].
  intro H. destruct (H initial_state r Hc) as (st' & c & Hok).
  rewrite Hs in Hok. discriminate Hok.
Qed.

(** C4, amended: on a record that is not crashed and has a finite altitude
    the loop body sends a command whose altitude is, by value, the clamp of
    the truncated [delta_y] to [-max_delta .. max_delta], and 0 inside the
    dead band. *)
Theorem control_step_altitude (st : state) (r : telemetry_record) (yq : Q) :
  check_crash r = Ok false ->
  y r = Fin yq ->
  Qabs yq < overflow_threshold ->
  exists (st' : state) (c : Command.t) (a : Q),
    control_step st r = Ok (st', c)
    /\ value (Command.altitude c) = Fin a
    /\ a == altitude_spec (sensor r) yq.
Proof.
  intros Hc Hy Hfin.
  destruct (not_crashed_step st r yq Hc Hy Hfin)
    as (gx & gy & gz & alt & a & _ & Hstep & Ha & Haq & _).
  eexists. eexists. exists a. split; [exact Hstep|].
  split; [exact Ha | exact Haq].
Qed.

Lemma control_step_altitude_witness :
  let r := finite_record 0 1995 50 [0; 0; 0] 0 0 "GREEN" in
  exists (st' : state) (c : Command.t) (a : Q),
    control_step initial_state r = Ok (st', c)
    /\ value (Command.altitude c) = Fin a
    /\ a == altitude_spec "GREEN" 1995.
Proof.
  intro r.
  apply (control_step_altitude initial_state r 1995); reflexivity.
Defined.

(** ** Speed and movement *)

(** C5: the end-to-end scenario.  From the initial loop variables the record
    is not crashed and the command sent is speed 2, altitude 100, movement
    ['rev']. *)
Theorem end_to_end_scenario :
  let r := finite_record 0 0 50 [0.9; 0; 0] 0 0 "GREEN" in
  check_crash r = Ok false
  /\ control_step initial_state r
     = Ok (mkState rev 2, Command.mk 2 (Int 100) rev).
Proof.
  split; vm_compute; reflexivity.
Qed.

(** C8, as stated, fails on an infinite altitude: the record is not crashed
    and its battery is below 20, yet the loop body raises OverflowError
    before it sets the speed, and sends nothing. *)
Lemma no_speed_one_on_infinite_y :
  let r :=
    mkTelemetry (Fin 0) PInf (Fin 15) [Fin 0.1; Fin 0; Fin 0] (Fin 0) (Fin 0)
      "GREEN" in
  check_crash r = Ok false
  /\ battery r <d of_int 20
  /\ (forall st : state, control_step st r = Raise OverflowError)
  /\ ~ (forall (st : state) (r' : telemetry_record),
          check_crash r' = Ok false ->
          battery r' <d of_int 20 ->
          exists (st' : state) (c : Command.t),
            control_step st r' = Ok (st', c) /\ Command.speed c = 1%Z).
Proof.
  intro r.
  assert (Hc : check_crash r = Ok false) by (vm_compute; reflexivity).
  assert (Hs : forall st : state, control_step st r = Raise OverflowError)
    by (intro st; apply control_step_infinite_y; reflexivity).
  split; [exact Hc|]. split; [reflexivity|]. split; [exact Hs|].
  intro H. destruct (H initial_state r Hc eq_refl) as (st' & c & Hok & _).
  rewrite Hs in Hok. discriminate Hok.
Qed.

(** C8, amended: on a record that is not crashed and has a finite altitude,
    with battery below 20 the speed is set to 1 and sent as 1 whatever the
    gyro says, and the tilt branch is skipped: the movement is the previous
    one, changed by the lateral override only. *)
Theorem low_battery_forces_speed_one (st : state) (r : telemetry_record) :
  check_crash r = Ok false ->
  finite (y r) ->
  battery r <d of_int 20 ->
  exists (st' : state) (c : Command.t),
    control_step st r = Ok (st', c)
    /\ speed st' = 1%Z
    /\ Command.speed c = 1%Z
    /\ current_movement st' = lateral_override (x r) (current_movement st)
    /\ Command.movement c = lateral_override (x r) (current_movement st).
Proof.
  intros Hc (yq & Hy & Hfin) Hb.
  destruct (not_crashed_step st r yq Hc Hy Hfin)
    as (gx & gy & gz & alt & a & _ & Hstep & _).
  unfold speed_movement in Hstep. rewrite Hb in Hstep. cbn [fst snd] in Hstep.
  eexists. eexists. split; [exact Hstep|]. repeat split.
Qed.

Lemma low_battery_forces_speed_one_witness :
  let st := mkState fwd 3 in
  let r := finite_record 0 10 15 [0.9; 0; 0] 0 0 "GREEN" in
  exists (st' : state) (c : Command.t),
    control_step st r = Ok (st', c)
    /\ speed st' = 1%Z
    /\ Command.speed c = 1%Z
    /\ current_movement st' = fwd
    /\ Command.movement c = fwd.
Proof.
  intros st r.
  apply (low_battery_forces_speed_one st r); try reflexivity.
  exists 10. split; reflexivity.
Defined.

(** C9, as stated, fails on an infinite altitude: the record is not crashed
    and its x is above 90000, yet the loop body raises OverflowError before
    the override, and no movement is sent. *)
Lemma no_override_on_infinite_y :
  let r :=
    mkTelemetry (Fin 95000) PInf (Fin 50) [Fin 0.1; Fin 0; Fin 0] (Fin 0)
      (Fin 0) "GREEN" in
  check_crash r = Ok false
  /\ of_int 90000 <d x r
  /\ (forall st : state, control_step st r = Raise OverflowError)
  /\ ~ (forall (st : state) (r' : telemetry_record),
          check_crash r' = Ok false ->
          of_int 90000 <d x r' ->
          exists (st' : state) (c : Command.t),
            control_step st r' = Ok (st', c) /\ Command.movement c = rev).
Proof.
  intro r.
  assert (Hc : check_crash r = Ok false) by (vm_compute; reflexivity).
  assert (Hs : forall st : state, control_step st r = Raise OverflowError)
    by (intro st; apply control_step_infinite_y; reflexivity).
  split; [exact Hc|]. split; [reflexivity|]. split; [exact Hs|].
  intro H. destruct (H initial_state r Hc eq_refl) as (st' & c & Hok & _).
  rewrite Hs in Hok. discriminate Hok.
Qed.

(** C9, amended: on a record that is not crashed and has a finite altitude
    the lateral override runs last.  Beyond x = 90000 the movement kept and
    sent is ['rev'], below x = -90000 it is ['fwd'], whatever the tilt branch
    did. *)
Theorem lateral_override_last (st : state) (r : telemetry_record) :
  check_crash r = Ok false ->
  finite (y r) ->
  exists (st' : state) (c : Command.t),
    control_step st r = Ok (st', c)
    /\ Command.movement c = current_movement st'
    /\ (of_int 90000 <d x r -> Command.movement c = rev)
    /\ (x r <d of_int (-90000) -> Command.movement c = fwd).
Proof.
  intros Hc (yq & Hy & Hfin).
  destruct (not_crashed_step st r yq Hc Hy Hfin)
    as (gx & gy & gz & alt & a & _ & Hstep & _).
  eexists. eexists. split; [exact Hstep|].
  cbn [Command.movement current_movement]. split; [reflexivity|].
  unfold lateral_override. split.
  - intro H. rewrite H. reflexivity.
  - intro H.
    assert (H1 : dlt (of_int 90000) (x r) = false).
    { destruct (x r) as [xq| | |]; cbn in *; try discriminate; try reflexivity.
      reflect_tests. apply Qltb_ge.
      change (inject_Z (-90000)) with (-90000) in H.
      change (inject_Z 90000) with 90000. lra. }
    rewrite H1, H. reflexivity.
Qed.

Lemma lateral_override_last_witness :
  let st := mkState rev 3 in
  let r := finite_record 95000 10 50 [0.9; 0; 0] 0 0 "GREEN" in
  exists (st' : state) (c : Command.t),
    control_step st r = Ok (st', c) /\ Command.movement c = rev.
Proof.
  intros st r.
  destruct (lateral_override_last st r eq_refl)
    as (st' & c & Hstep & _ & Hrev & _).
  - exists 10. split; reflexivity.
  - exists st', c. split; [exact Hstep|].
    apply Hrev. reflexivity.
Defined.

(** C7, as stated, fails at battery exactly 20: the record below is not
    crashed, its battery is not below 20 and its first gyro component is 0,
    yet the speed stays 3 instead of becoming min(5, 3 + 1) = 4. *)
Lemma speed_increase_fails_at_battery_20 :
  let r := finite_record 0 10 20 [0; 0; 0] 0 0 "GREEN" in
  check_crash r = Ok false
  /\ control_step initial_state r
     = Ok (mkState fwd 3, Command.mk 3 (Int 100) fwd)
  /\ ~ (forall (st : state) (r' : telemetry_record) (gx gy gz : double),
          check_crash r' = Ok false ->
          gyro r' = [gx; gy; gz] ->
          dlt (battery r') (of_int 20) = false ->
          dabs gx <d Fin 0.5 ->
          exists (st' : state) (c : Command.t),
            control_step st r' = Ok (st', c)
            /\ Command.speed c = Z.min 5 (speed st + 1)).
Proof.
  intro r.
  assert (Hstep : control_step initial_state r
                  = Ok (mkState fwd 3, Command.mk 3 (Int 100) fwd))
    by (vm_compute; reflexivity).
  split; [vm_compute; reflexivity|]. split; [exact Hstep|].
  intro H.
  destruct (H initial_state r (Fin 0) (Fin 0) (Fin 0))
    as (st' & c & Hok & Hspeed); try reflexivity.
  rewrite Hstep in Hok. injection Hok as _ <-. discriminate Hspeed.
Qed.

(** C7, amended: the increase needs battery strictly above 20.  On a record
    that is not crashed and has a finite altitude, with battery above 20 and
    |gx| < 0.5 the speed kept and sent is min(5, speed + 1); at battery
    exactly 20, with |gx| < 0.8, the speed is left as it was. *)
Theorem speed_increase_above_20 (st : state) (r : telemetry_record)
  (gx gy gz : double) :
  check_crash r = Ok false ->
  finite (y r) ->
  gyro r = [gx; gy; gz] ->
  exists (st' : state) (c : Command.t),
    control_step st r = Ok (st', c)
    /\ Command.speed c = speed st'
    /\ (of_int 20 <d battery r -> dabs gx <d Fin 0.5 ->
        speed st' = Z.min 5 (speed st + 1))
    /\ (forall bq : Q,
           battery r = Fin bq -> bq == 20 -> dabs gx <d Fin 0.8 ->
           speed st' = speed st).
Proof.
  intros Hc (yq & Hy & Hfin) Hg.
  destruct (not_crashed_step st r yq Hc Hy Hfin)
    as (gx' & gy' & gz' & alt & a & Hg' & Hstep & _).
  rewrite Hg in Hg'. injection Hg' as <- <- <-.
  eexists. eexists. split; [exact Hstep|].
  cbn [Command.speed speed]. split; [reflexivity|].
  unfold speed_movement. split.
  - intros Hb Hx.
    assert (E1 : dlt (battery r) (of_int 20) = false).
    { destruct (battery r) as [bq| | |]; cbn in *; try discriminate;
        try reflexivity.
      reflect_tests. apply Qltb_ge. lra. }
    assert (E2 : dle (Fin (8 # 10)) (dabs gx) = false).
    { destruct gx as [gq| | |]; cbn in *; try discriminate.
      reflect_tests. apply Qle_bool_gt. lra. }
    assert (E3 : dlt (dabs gx) (Fin (1 # 2)) = true).
    { destruct gx as [gq| | |]; cbn in *; try discriminate.
      reflect_tests. apply Qltb_lt. lra. }
    rewrite E1, E2, E3, Hb. reflexivity.
  - intros bq Hb Hbq Hx. rewrite Hb.
    assert (E1 : dlt (Fin bq) (of_int 20) = false).
    { cbn. apply Qltb_ge. rewrite Hbq. discriminate. }
    assert (E2 : dle (Fin (8 # 10)) (dabs gx) = false).
    { destruct gx as [gq| | |]; cbn in *; try discriminate.
      reflect_tests. apply Qle_bool_gt. exact Hx. }
    assert (E3 : dlt (of_int 20) (Fin bq) = false).
    { cbn. apply Qltb_ge. rewrite Hbq. discriminate. }
    rewrite E1, E2, E3, andb_false_r. reflexivity.
Qed.

Lemma speed_increase_above_20_witness :
  let r := finite_record 0 10 50 [0.1; 0; 0] 0 0 "GREEN" in
  exists (st' : state) (c : Command.t),
    control_step (mkState fwd 5) r = Ok (st', c)
    /\ Command.speed c = speed st'
    /\ speed st' = 5%Z.
Proof.
  intro r.
  destruct (speed_increase_above_20 (mkState fwd 5) r (Fin 0.1) (Fin 0)
              (Fin 0) eq_refl) as (st' & c & Hstep & Hc & Hinc & _).
  - exists 10. split; reflexivity.
  - reflexivity.
  - exists st', c. split; [exact Hstep|]. split; [exact Hc|].
    apply Hinc; reflexivity.
Defined.

(** ** The speed domain *)

Lemma speed_movement_domain (st : state) (b gx : double) :
  (1 <= speed st <= 5)%Z ->
  (1 <= fst (speed_movement st b gx) <= 5)%Z.
Proof.
  intro Hs. unfold speed_movement.
  destruct (dlt b (of_int 20));
    [|destruct (dle (Fin (8 # 10)) (dabs gx));
      [|destruct (dlt (dabs gx) (Fin (1 # 2)) && dlt (of_int 20) b)]];
    cbn [fst]; lia.
Qed.

Lemma control_step_speed (st st' : state) (r : telemetry_record)
  (c : Command.t) :
  (1 <= speed st <= 5)%Z ->
  control_step st r = Ok (st', c) ->
  speed_in_domain (st', c).
Proof.
  intros Hs H.
  destruct (control_step_ok_shape st st' r c H)
    as (gx & gy & gz & yq & alt & a & _ & _ & _ & -> & -> & _).
  split; [|reflexivity].
  cbn [fst speed]. apply speed_movement_domain, Hs.
Qed.

Lemma control_steps_speed (records : list telemetry_record) :
  forall st : state,
    (1 <= speed st <= 5)%Z ->
    Forall speed_in_domain (fst (control_steps st records)).
Proof.
  induction records as [|r records IH]; intros st Hs; cbn [control_steps].
  - constructor.
  - destruct (control_step st r) as [[st' c]|e] eqn:Hstep; [|constructor].
    pose proof (control_step_speed st st' r c Hs Hstep) as Hdom.
    specialize (IH st' (proj1 Hdom)).
    destruct (control_steps st' records) as [sent e].
    cbn [fst] in *. constructor; assumption.
Qed.

Lemma control_steps_complete (records : list telemetry_record) :
  forall st : state,
    Forall (fun r => check_crash r = Ok false /\ finite (y r)) records ->
    snd (control_steps st records) = None
    /\ List.length (fst (control_steps st records)) = List.length records.
Proof.
  induction records as [|r records IH]; intros st Hall;
    cbn [control_steps].
  - split; reflexivity.
  - inversion Hall as [|? ? [Hc (yq & Hy & Hfin)] Hrest]; subst.
    destruct (not_crashed_step st r yq Hc Hy Hfin)
      as (gx & gy & gz & alt & a & _ & Hstep & _).
    rewrite Hstep.
    match goal with
    | |- context [control_steps ?s records] =>
        destruct (IH s Hrest) as [IH1 IH2];
        destruct (control_steps s records) as [sent e]
    end.
    cbn [fst snd List.length] in *. split; [exact IH1|].
    rewrite IH2. reflexivity.
Qed.

Lemma drone_control_loop_speed (inbox : list data) :
  forall st : state,
    (1 <= speed st <= 5)%Z ->
    Forall speed_in_domain (fst (drone_control_loop st inbox)).
Proof.
  induction inbox as [|d inbox IH]; intros st Hs; cbn [drone_control_loop].
  - constructor.
  - destruct (String.eqb (status d) "crashed"); [constructor|].
    destruct (parse_telemetry (telemetry d)) as [parsed|]; [|apply IH, Hs].
    destruct (check_crash parsed) as [[|]|e]; try constructor.
    destruct (control_step st parsed) as [[st' c]|e] eqn:Hstep;
      [|constructor].
    pose proof (control_step_speed st st' parsed c Hs Hstep) as Hdom.
    specialize (IH st' (proj1 Hdom)).
    destruct (drone_control_loop st' inbox) as [sent why].
    cbn [fst] in *. constructor; assumption.
Qed.

(** C10: the speed starts at 3 and stays within 1..5.  Over any sequence of
    records processed from the initial loop variables, after every iteration
    that sends a command the speed kept is within 1..5 and is the speed
    sent, up to the iteration, if any, where the loop body raises; on records
    that are not crashed and have a finite altitude every iteration sends
    one.  The same holds for every command the loop sends on any sequence of
    server responses. *)
Theorem speed_stays_in_domain (records : list telemetry_record) :
  speed initial_state = 3%Z
  /\ Forall speed_in_domain (fst (control_steps initial_state records))
  /\ (Forall (fun r => check_crash r = Ok false /\ finite (y r)) records ->
      snd (control_steps initial_state records) = None
      /\ List.length (fst (control_steps initial_state records))
         = List.length records)
  /\ (forall inbox : list data,
         Forall speed_in_domain (fst (drone_control inbox))).
Proof.
  split; [reflexivity|]. split.
  - apply control_steps_speed. cbn. lia.
  - split.
    + apply control_steps_complete.
    + intro inbox. apply drone_control_loop_speed. cbn. lia.
Qed.

Lemma speed_stays_in_domain_witness :
  let low := finite_record 0 10 50 [0.1; 0; 0] 0 0 "GREEN" in
  let tilted := finite_record 0 10 50 [0.9; 0; 0] 0 0 "GREEN" in
  Forall speed_in_domain
    (fst (control_steps initial_state [low; low; low; tilted]))
  /\ List.length (fst (control_steps initial_state [low; low; low; tilted]))
     = 4%nat.
Proof.
  intros low tilted.
  destruct (speed_stays_in_domain [low; low; low; tilted])
    as (_ & Hdom & Hall & _).
  split; [exact Hdom|].
  apply Hall.
  assert (Hl : check_crash low = Ok false /\ finite (y low)).
  { split; [reflexivity|]. exists 10. split; reflexivity. }
  assert (Ht : check_crash tilted = Ok false /\ finite (y tilted)).
  { split; [reflexivity|]. exists 10. split; reflexivity. }
  repeat (apply Forall_cons; [assumption|]). apply Forall_nil.
Defined.

(** * The decoder *)

(** ** The matcher *)

Lemma append_assoc (a b c : string) :
  ((a ++ b) ++ c)%string = (a ++ (b ++ c))%string.
Proof.
  induction a as [|ch a IH]; cbn; [reflexivity|]. rewrite IH. reflexivity.
Qed.

Lemma append_empty_r (a : string) : (a ++ "")%string = a.
Proof.
  induction a as [|ch a IH]; cbn; [reflexivity|]. rewrite IH. reflexivity.
Qed.

Lemma plus_outside (cls : ascii -> bool) (k : string -> option (list string))
  (acc rest : string) :
  starts_outside cls rest = true -> Re.plus cls k acc rest = None.
Proof.
  destruct rest as [|c rest]; cbn; [reflexivity|].
  intro H. apply negb_true_iff in H. rewrite H. reflexivity.
Qed.

(** A group followed by text outside its class takes all of its class: the
    longest candidate is the first one tried, and the rest matches. *)
Lemma plus_longest (cls : ascii -> bool) (k : string -> option (list string))
  (rest : string) (groups : list string) (s : string) :
  forall acc : string,
    s <> EmptyString ->
    all_in cls s = true ->
    starts_outside cls rest = true ->
    k rest = Some groups ->
    Re.plus cls k acc (s ++ rest) = Some ((acc ++ s)%string :: groups).
Proof.
  induction s as [|c s IH]; intros acc Hne Hall Hout Hk; [congruence|].
  cbn in Hall. apply andb_true_iff in Hall. destruct Hall as [Hc Hall].
  cbn [append Re.plus]. rewrite Hc.
  destruct s as [|c' s].
  - cbn [append]. rewrite (plus_outside cls k _ rest Hout), Hk.
    reflexivity.
  - rewrite (IH (acc ++ String c "")%string) by (assumption || discriminate).
    rewrite append_assoc. reflexivity.
Qed.

(** A group whose class holds ['-'], followed by a ['-'] that the rest of
    the pattern needs: the longest candidate swallows that ['-'] and fails,
    and the matcher backs off by one character. *)
Lemma plus_back_off (cls : ascii -> bool) (k : string -> option (list string))
  (c0 : ascii) (rest : string) (groups : list string) (s : string) :
  forall acc : string,
    s <> EmptyString ->
    all_in cls s = true ->
    cls c0 = true ->
    starts_outside cls rest = true ->
    k rest = None ->
    k (String c0 rest) = Some groups ->
    Re.plus cls k acc (s ++ String c0 rest)
    = Some ((acc ++ s)%string :: groups).
Proof.
  induction s as [|c s IH]; intros acc Hne Hall Hc0 Hout Hk Hk0;
    [congruence|].
  cbn in Hall. apply andb_true_iff in Hall. destruct Hall as [Hc Hall].
  cbn [append Re.plus]. rewrite Hc.
  destruct s as [|c' s].
  - cbn [append Re.plus]. rewrite Hc0.
    rewrite (plus_outside cls k _ rest Hout), Hk, Hk0. reflexivity.
  - rewrite (IH (acc ++ String c "")%string) by (assumption || discriminate).
    rewrite append_assoc. reflexivity.
Qed.

(** On a text laid out as the grammar says, the match succeeds and the groups
    are the seven fields. *)
Lemma match_pattern_fields (tx ty tb g tw td tok trail : string) :
  group_text signed_class tx ->
  group_text signed_class ty ->
  group_text unsigned_class tb ->
  group_text gyro_class g ->
  group_text unsigned_class tw ->
  group_text unsigned_class td ->
  group_text Re.word tok ->
  starts_outside Re.word trail = true ->
  Re.match_ pattern
    ("X-" ++ tx ++ "-Y-" ++ ty ++ "-BAT-" ++ tb ++ "-GYR-[" ++ g
     ++ "]-WIND-" ++ tw ++ "-DUST-" ++ td ++ "-SENS-" ++ tok ++ trail)
  = Some [tx; ty; tb; g; tw; td; tok].
Proof.
  intros [Hx1 Hx2] [Hy1 Hy2] [Hb1 Hb2] [Hg1 Hg2] [Hw1 Hw2] [Hd1 Hd2]
    [Ht1 Ht2] Htrail.
  unfold pattern.
  assert (H7 : Re.match_ [Re.Group Re.word] (tok ++ trail) = Some [tok]).
  { cbn [Re.match_]. apply (plus_longest Re.word _ trail [] tok "");
      auto. }
  assert (H6 : Re.match_
                 [Re.Group unsigned_class; Re.Lit "-SENS-"; Re.Group Re.word]
                 (td ++ "-SENS-" ++ tok ++ trail) = Some [td; tok]).
  { cbn [Re.match_].
    apply (plus_longest unsigned_class _ _ [tok] td ""); auto. }
  assert (H5 : Re.match_
                 [Re.Group unsigned_class; Re.Lit "-DUST-";
                  Re.Group unsigned_class; Re.Lit "-SENS-"; Re.Group Re.word]
                 (tw ++ "-DUST-" ++ td ++ "-SENS-" ++ tok ++ trail)
               = Some [tw; td; tok]).
  { cbn [Re.match_].
    apply (plus_longest unsigned_class _ _ [td; tok] tw ""); auto. }
  assert (H4 : Re.match_
                 [Re.Group gyro_class; Re.Lit "]-WIND-";
                  Re.Group unsigned_class; Re.Lit "-DUST-";
                  Re.Group unsigned_class; Re.Lit "-SENS-"; Re.Group Re.word]
                 (g ++ "]-WIND-" ++ tw ++ "-DUST-" ++ td ++ "-SENS-"
                  ++ tok ++ trail)
               = Some [g; tw; td; tok]).
  { cbn [Re.match_].
    apply (plus_longest gyro_class _ _ [tw; td; tok] g ""); auto. }
  assert (H3 : Re.match_
                 [Re.Group unsigned_class; Re.Lit "-GYR-[";
                  Re.Group gyro_class; Re.Lit "]-WIND-";
                  Re.Group unsigned_class; Re.Lit "-DUST-";
                  Re.Group unsigned_class; Re.Lit "-SENS-"; Re.Group Re.word]
                 (tb ++ "-GYR-[" ++ g ++ "]-WIND-" ++ tw ++ "-DUST-" ++ td
                  ++ "-SENS-" ++ tok ++ trail)
               = Some [tb; g; tw; td; tok]).
  { cbn [Re.match_].
    apply (plus_longest unsigned_class _ _ [g; tw; td; tok] tb ""); auto. }
  assert (H2 : Re.match_
                 [Re.Group signed_class; Re.Lit "-BAT-";
                  Re.Group unsigned_class; Re.Lit "-GYR-[";
                  Re.Group gyro_class; Re.Lit "]-WIND-";
                  Re.Group unsigned_class; Re.Lit "-DUST-";
                  Re.Group unsigned_class; Re.Lit "-SENS-"; Re.Group Re.word]
                 (ty ++ "-BAT-" ++ tb ++ "-GYR-[" ++ g ++ "]-WIND-" ++ tw
                  ++ "-DUST-" ++ td ++ "-SENS-" ++ tok ++ trail)
               = Some [ty; tb; g; tw; td; tok]).
  { cbn [Re.match_].
    apply (plus_back_off signed_class _ "-" _ [tb; g; tw; td; tok] ty "");
      auto. }
  cbn [Re.match_ append Re.strip_prefix]. cbn.
  apply (plus_back_off signed_class _ "-" _ [ty; tb; g; tw; td; tok] tx "");
    auto.
Qed.

(** ** Float texts *)

Lemma all_in_impl (p q : ascii -> bool) (s : string) :
  (forall c : ascii, p c = true -> q c = true) ->
  all_in p s = true -> all_in q s = true.
Proof.
  intro Hpq. induction s as [|c s IH]; cbn; [reflexivity|].
  intro H. apply andb_true_iff in H. destruct H as [Hc Hs].
  rewrite (Hpq c Hc), (IH Hs). reflexivity.
Qed.

Lemma all_in_append (cls : ascii -> bool) (a b : string) :
  all_in cls (a ++ b) = all_in cls a && all_in cls b.
Proof.
  induction a as [|c a IH]; cbn; [reflexivity|].
  rewrite IH, andb_assoc. reflexivity.
Qed.

Lemma unsigned_signed (c : ascii) :
  unsigned_class c = true -> signed_class c = true.
Proof.
  unfold unsigned_class, signed_class. intro H.
  apply orb_true_iff in H. destruct H as [H|H]; rewrite H;
    rewrite ?orb_true_r; reflexivity.
Qed.

Lemma signed_gyro (c : ascii) :
  signed_class c = true -> gyro_class c = true.
Proof.
  unfold signed_class, gyro_class. intro H. rewrite H. reflexivity.
Qed.

Lemma unsigned_not_minus (c : ascii) :
  unsigned_class c = true -> Ascii.eqb c "-" = false.
Proof.
  intro H. destruct (Ascii.eqb_spec c "-") as [->|]; [|reflexivity].
  discriminate H.
Qed.

Lemma signed_not_comma (c : ascii) :
  signed_class c = true -> Ascii.eqb c "," = false.
Proof.
  intro H. destruct (Ascii.eqb_spec c ",") as [->|]; [|reflexivity].
  discriminate H.
Qed.

Lemma is_decimal_float (d : string) :
  is_decimal d = true ->
  all_in unsigned_class d = true
  /\ d <> EmptyString
  /\ Str.float d = Ok (float_value d)
  /\ exists q : Q, Str.decimal d = Ok q /\ float_value d = of_exact q.
Proof.
  unfold is_decimal, float_value. intro H.
  apply andb_true_iff in H. destruct H as [Hall Hf].
  destruct (Str.float d) as [v|e] eqn:E; [|discriminate Hf].
  split; [exact Hall|]. split; [|split; [reflexivity|]].
  - intros ->. discriminate E.
  - destruct d as [|c d]; [discriminate E|].
    cbn in Hall. apply andb_true_iff in Hall. destruct Hall as [Hc _].
    unfold Str.float in E. rewrite (unsigned_not_minus c Hc) in E.
    destruct (Str.decimal (String c d)) as [q|e]; [|discriminate E].
    cbn in E. injection E as <-. exists q. split; reflexivity.
Qed.

Lemma signed_text_group (f : bool * string) :
  is_decimal (snd f) = true -> group_text signed_class (signed_text f).
Proof.
  intro H. destruct (is_decimal_float _ H) as (Hall & Hne & _).
  apply (all_in_impl _ _ _ unsigned_signed) in Hall.
  destruct f as [[|] d]; unfold signed_text; cbn [fst snd] in *; split;
    try discriminate; assumption.
Qed.

Lemma decimal_group (d : string) :
  is_decimal d = true -> group_text unsigned_class d.
Proof.
  intro H. destruct (is_decimal_float _ H) as (Hall & Hne & _).
  split; assumption.
Qed.

(** [float] reads a signed text as the number it denotes. *)
Lemma float_signed_text (f : bool * string) :
  is_decimal (snd f) = true ->
  Str.float (signed_text f) = Ok (signed_value f).
Proof.
  intro H. destruct (is_decimal_float _ H) as (_ & _ & Hf & q & Hd & Hq).
  destruct f as [[|] d]; unfold signed_text, signed_value;
    cbn [fst snd] in *.
  - cbn. rewrite Hd, Hq. reflexivity.
  - exact Hf.
Qed.

Lemma map_float_signed (gs : list (bool * string)) :
  forallb (fun f => is_decimal (snd f)) gs = true ->
  map_result Str.float (map signed_text gs) = Ok (map signed_value gs).
Proof.
  induction gs as [|f gs IH]; cbn [forallb map map_result];
    [reflexivity|].
  intro H. apply andb_true_iff in H. destruct H as [Hf Hgs].
  rewrite (float_signed_text f Hf). cbn [bind].
  rewrite (IH Hgs). reflexivity.
Qed.

(** ** Joining and splitting the gyro list *)

Lemma split_comma_single (t : string) :
  all_in signed_class t = true -> Str.split_comma t = [t].
Proof.
  induction t as [|c t IH]; cbn; [reflexivity|].
  intro H. apply andb_true_iff in H. destruct H as [Hc Ht].
  rewrite (signed_not_comma c Hc), (IH Ht). reflexivity.
Qed.

Lemma split_comma_cons (t rest : string) :
  all_in signed_class t = true ->
  Str.split_comma (t ++ String "," rest) = t :: Str.split_comma rest.
Proof.
  induction t as [|c t IH]; cbn; [reflexivity|].
  intro H. apply andb_true_iff in H. destruct H as [Hc Ht].
  rewrite (signed_not_comma c Hc), (IH Ht). reflexivity.
Qed.

Lemma split_join_comma (ts : list string) :
  ts <> [] ->
  Forall (group_text signed_class) ts ->
  Str.split_comma (join_comma ts) = ts.
Proof.
  induction ts as [|t ts IH]; intros Hne Hall; [congruence|].
  inversion Hall as [|? ? [_ Ht] Hts]; subst.
  destruct ts as [|t' ts].
  - cbn. apply split_comma_single, Ht.
  - change (join_comma (t :: t' :: ts))
      with (t ++ String "," (join_comma (t' :: ts)))%string.
    rewrite (split_comma_cons _ _ Ht).
    rewrite IH by (assumption || discriminate). reflexivity.
Qed.

Lemma join_comma_group (ts : list string) :
  ts <> [] ->
  Forall (group_text signed_class) ts ->
  group_text gyro_class (join_comma ts).
Proof.
  induction ts as [|t ts IH]; intros Hne Hall; [congruence|].
  inversion Hall as [|? ? [Hne' Ht] Hts]; subst.
  apply (all_in_impl _ _ _ signed_gyro) in Ht.
  destruct ts as [|t' ts].
  - cbn. split; assumption.
  - change (join_comma (t :: t' :: ts))
      with (t ++ String "," (join_comma (t' :: ts)))%string.
    split.
    + destruct t; [congruence | discriminate].
    + rewrite all_in_append, Ht. cbn [all_in andb].
      destruct IH as [_ IH]; [discriminate | assumption |].
      rewrite IH. reflexivity.
Qed.

(** ** parse_telemetry *)

Lemma is_token_group (tok : string) :
  is_token tok = true -> group_text Re.word tok.
Proof.
  unfold is_token. intro H. apply andb_true_iff in H. destruct H as [Ha Hn].
  split; [|exact Ha].
  intros ->. discriminate Hn.
Qed.

(** What the decoder returns on a text laid out as the grammar says, with any
    positive number of gyro components and with signs on x, y and the gyro
    components only. *)
Lemma parse_telemetry_fields (fx fy : bool * string) (db : string)
  (gs : list (bool * string)) (dw dd tok trail : string) :
  is_decimal (snd fx) = true ->
  is_decimal (snd fy) = true ->
  is_decimal db = true ->
  gs <> [] ->
  forallb (fun f => is_decimal (snd f)) gs = true ->
  is_decimal dw = true ->
  is_decimal dd = true ->
  is_token tok = true ->
  starts_outside Re.word trail = true ->
  parse_telemetry
    (telemetry_text (signed_text fx) (signed_text fy) db
       (map signed_text gs) dw dd tok trail)
  = Some (mkTelemetry (signed_value fx) (signed_value fy) (float_value db)
            (map signed_value gs) (float_value dw) (float_value dd) tok).
Proof.
  intros Hx Hy Hb Hne Hgs Hw Hd Htok Htrail.
  assert (Htexts : Forall (group_text signed_class) (map signed_text gs)).
  { apply Forall_forall. intros t Ht. apply in_map_iff in Ht.
    destruct Ht as (f & <- & Hin). apply signed_text_group.
    rewrite forallb_forall in Hgs. apply (Hgs f Hin). }
  assert (Hne' : map signed_text gs <> []).
  { destruct gs; [congruence | discriminate]. }
  unfold parse_telemetry, telemetry_text.
  rewrite match_pattern_fields;
    auto using signed_text_group, decimal_group, is_token_group,
      join_comma_group.
  unfold build_record.
  rewrite (float_signed_text fx Hx), (float_signed_text fy Hy). cbn [bind].
  destruct (is_decimal_float _ Hb) as (_ & _ & -> & _).
  destruct (is_decimal_float _ Hw) as (_ & _ & -> & _).
  destruct (is_decimal_float _ Hd) as (_ & _ & -> & _).
  rewrite (split_join_comma _ Hne' Htexts), (map_float_signed gs Hgs).
  reflexivity.
Qed.

(** C1 at two inputs: with two and with four gyro components the decoder
    returns a record, whose gyro list has two and four entries. *)
Theorem gyro_count_not_checked :
  parse_telemetry
    "X-1.0-Y-2.0-BAT-50.0-GYR-[0.1,0.2]-WIND-1.0-DUST-1.5-SENS-GREEN"
  = Some (finite_record 1.0 2.0 50.0 [0.1; 0.2] 1.0 1.5 "GREEN")
  /\ parse_telemetry
       "X-1.0-Y-2.0-BAT-50.0-GYR-[0.1,0.2,0.3,0.4]-WIND-1.0-DUST-1.5-SENS-GREEN"
     = Some (finite_record 1.0 2.0 50.0 [0.1; 0.2; 0.3; 0.4] 1.0 1.5
               "GREEN").
Proof.
  split; vm_compute; reflexivity.
Qed.

(** The same for every count: the gyro list of the record is as long as the
    list between the brackets. *)
Lemma parse_telemetry_gyro_count (gs : list (bool * string)) :
  gs <> [] ->
  forallb (fun f => is_decimal (snd f)) gs = true ->
  exists r : telemetry_record,
    parse_telemetry
      (telemetry_text "1.0" "2.0" "50.0" (map signed_text gs) "1.0" "1.5"
         "GREEN" "")
    = Some r
    /\ List.length (gyro r) = List.length gs.
Proof.
  intros Hne Hgs. eexists. split.
  - apply (parse_telemetry_fields (false, "1.0"%string)
             (false, "2.0"%string)); auto.
  - cbn [gyro]. apply length_map.
Qed.

(** C2 at one input: the decoder accepts a text with two gyro components,
    [check_crash] raises ValueError on the record, and the loop ends on that
    exception without sending a command. *)
Theorem check_crash_raises_after_decode :
  let s :=
    "X-1.0-Y-2.0-BAT-50.0-GYR-[0.1,0.2]-WIND-1.0-DUST-1.5-SENS-GREEN"%string in
  exists r : telemetry_record,
    parse_telemetry s = Some r
    /\ check_crash r = Raise ValueError
    /\ drone_control [mkData "ok" s] = ([], Unexpected ValueError).
Proof.
  eexists. split; [vm_compute; reflexivity|].
  split; vm_compute; reflexivity.
Qed.

(** C6, as stated, fails for battery, wind and dust: the text decodes with
    5.0 in these positions and is rejected with -5.0 in any of them. *)
Lemma negative_battery_wind_dust_rejected :
  parse_telemetry
    "X-1.0-Y-2.0-BAT-5.0-GYR-[0.1,0.2,0.3]-WIND-5.0-DUST-5.0-SENS-GREEN"
  = Some (finite_record 1.0 2.0 5.0 [0.1; 0.2; 0.3] 5.0 5.0 "GREEN")
  /\ parse_telemetry
       "X-1.0-Y-2.0-BAT--5.0-GYR-[0.1,0.2,0.3]-WIND-5.0-DUST-5.0-SENS-GREEN"
     = None
  /\ parse_telemetry
       "X-1.0-Y-2.0-BAT-5.0-GYR-[0.1,0.2,0.3]-WIND--5.0-DUST-5.0-SENS-GREEN"
     = None
  /\ parse_telemetry
       "X-1.0-Y-2.0-BAT-5.0-GYR-[0.1,0.2,0.3]-WIND-5.0-DUST--5.0-SENS-GREEN"
     = None.
Proof.
  repeat split; vm_compute; reflexivity.
Qed.

(** C6, amended: x, y and the gyro components take an optional leading ['-'];
    battery, wind and dust are unsigned.  On every text of the grammar with
    three gyro components the decoder returns the record of the numbers
    written, negative where the text has the sign. *)
Theorem decode_signed_fields (fx fy g1 g2 g3 : bool * string)
  (db dw dd tok : string) :
  is_decimal (snd fx) = true ->
  is_decimal (snd fy) = true ->
  is_decimal db = true ->
  is_decimal (snd g1) = true ->
  is_decimal (snd g2) = true ->
  is_decimal (snd g3) = true ->
  is_decimal dw = true ->
  is_decimal dd = true ->
  is_token tok = true ->
  parse_telemetry
    ("X-" ++ signed_text fx ++ "-Y-" ++ signed_text fy ++ "-BAT-" ++ db
     ++ "-GYR-[" ++ signed_text g1 ++ "," ++ signed_text g2 ++ ","
     ++ signed_text g3 ++ "]-WIND-" ++ dw ++ "-DUST-" ++ dd ++ "-SENS-" ++ tok)
  = Some (mkTelemetry (signed_value fx) (signed_value fy) (float_value db)
            [signed_value g1; signed_value g2; signed_value g3]
            (float_value dw) (float_value dd) tok).
Proof.
  intros Hx Hy Hb H1 H2 H3 Hw Hd Htok.
  pose proof (parse_telemetry_fields fx fy db [g1; g2; g3] dw dd tok ""
                Hx Hy Hb) as H.
  unfold telemetry_text in H. cbn [map join_comma] in H.
  rewrite append_empty_r in H.
  repeat (rewrite append_assoc in H; cbn [append] in H).
  cbn [append]. apply H; try assumption; try reflexivity.
  - discriminate.
  - cbn [forallb]. rewrite H1, H2, H3. reflexivity.
Qed.

Lemma decode_signed_fields_witness :
  parse_telemetry
    "X--5.0-Y--5.0-BAT-50.0-GYR-[-5.0,-0.5,0.25]-WIND-1.0-DUST-1.5-SENS-RED"
  = Some (finite_record (-5.0) (-5.0) 50.0 [-5.0; -0.5; 0.25] 1.0 1.5
            "RED").
Proof.
  apply (decode_signed_fields (true, "5.0"%string) (true, "5.0"%string)
           (true, "5.0"%string) (true, "0.5"%string) (false, "0.25"%string)
           "50.0" "1.0" "1.5" "RED"); reflexivity.
Defined.

(** ** Which texts are unsigned float texts *)

Lemma digits_run (i : string) :
  all_in Re.digit i = true ->
  forall (acc : Z) (n : nat) (rest : string),
    starts_outside Re.digit rest = true ->
    exists m : Z,
      Str.digits (i ++ rest) acc n = (m, (n + String.length i)%nat, rest).
Proof.
  induction i as [|c i IH]; intros Hall acc n rest Hout.
  - exists acc. cbn [append String.length]. rewrite Nat.add_0_r.
    destruct rest as [|c rest]; cbn; [reflexivity|].
    cbn in Hout. apply negb_true_iff in Hout. rewrite Hout. reflexivity.
  - cbn in Hall. apply andb_true_iff in Hall. destruct Hall as [Hc Hi].
    cbn [append Str.digits String.length]. rewrite Hc.
    destruct (IH Hi (10 * acc + Str.digit_value c)%Z (S n) rest Hout)
      as (m & Hm).
    exists m. rewrite Hm. f_equal. f_equal. lia.
Qed.

Lemma digit_unsigned (c : ascii) :
  Re.digit c = true -> unsigned_class c = true.
Proof.
  unfold unsigned_class. intros ->. reflexivity.
Qed.

(** Digits, a ['.'] and more digits make an unsigned float text, as long as
    there is a digit before the ['.']; so do digits alone. *)
Lemma digits_dot_digits_decimal (i f : string) :
  i <> EmptyString ->
  all_in Re.digit i = true ->
  all_in Re.digit f = true ->
  is_decimal i = true /\ is_decimal (i ++ String "." f) = true.
Proof.
  intros Hne Hi Hf.
  unfold is_decimal. split; apply andb_true_iff; split.
  - apply (all_in_impl _ _ _ digit_unsigned), Hi.
  - destruct i as [|c i]; [congruence|].
    cbn in Hi. apply andb_true_iff in Hi. destruct Hi as [Hc Hi].
    unfold Str.float.
    rewrite (unsigned_not_minus c (digit_unsigned c Hc)).
    unfold Str.decimal.
    destruct (digits_run (String c i)
                ltac:(cbn; rewrite Hc, Hi; reflexivity) 0%Z 0%nat ""
                eq_refl) as (m & Hm).
    rewrite append_empty_r in Hm. rewrite Hm. reflexivity.
  - rewrite all_in_append.
    rewrite (all_in_impl _ _ i digit_unsigned Hi). cbn.
    apply (all_in_impl _ _ _ digit_unsigned), Hf.
  - destruct i as [|c i]; [congruence|].
    pose proof Hi as Hi'.
    cbn in Hi'. apply andb_true_iff in Hi'. destruct Hi' as [Hc _].
    unfold Str.float. cbn [append].
    rewrite (unsigned_not_minus c (digit_unsigned c Hc)).
    unfold Str.decimal.
    destruct (digits_run (String c i) Hi 0%Z 0%nat (String "." f) eq_refl)
      as (m & Hm).
    cbn [append] in Hm. rewrite Hm.
    change (Ascii.eqb "." ".") with true. cbv iota.
    destruct (digits_run f Hf m 0%nat "" eq_refl) as (m' & Hm').
    rewrite append_empty_r in Hm'. rewrite Hm'.
    cbn [String.length Nat.add Nat.eqb]. reflexivity.
Qed.

(** * Further properties of the decoder *)

(** ** What a successful match says about the string *)

Lemma strip_prefix_sound (p s s' : string) :
  Re.strip_prefix p s = Some s' -> s = (p ++ s')%string.
Proof.
  revert s. induction p as [|a p IH]; intros s H; cbn in H.
  - injection H as ->. reflexivity.
  - destruct s as [|b s]; [discriminate H|].
    destruct (Ascii.eqb_spec a b) as [->|]; [|discriminate H].
    cbn. rewrite (IH s H). reflexivity.
Qed.

(** A group that matched took a non-empty run of its class, and the rest of
    the pattern matched what follows. *)
Lemma plus_sound (cls : ascii -> bool) (k : string -> option (list string))
  (s : string) :
  forall (acc : string) (groups : list string),
    Re.plus cls k acc s = Some groups ->
    exists (p rest : string) (groups' : list string),
      s = (p ++ rest)%string
      /\ group_text cls p
      /\ groups = (acc ++ p)%string :: groups'
      /\ k rest = Some groups'.
Proof.
  induction s as [|c s IH]; intros acc groups H; cbn in H;
    [discriminate H|].
  destruct (cls c) eqn:Hc; [|discriminate H].
  destruct (Re.plus cls k (acc ++ String c "") s) as [gs|] eqn:Hp.
  - injection H as <-.
    destruct (IH _ _ Hp) as (p & rest & gs' & -> & [Hne Hall] & -> & Hk).
    exists (String c p), rest, gs'. repeat split.
    + discriminate.
    + cbn. rewrite Hc, Hall. reflexivity.
    + rewrite append_assoc. reflexivity.
    + exact Hk.
  - destruct (k s) as [gs'|] eqn:Hk; [|discriminate H].
    cbn in H. injection H as <-.
    exists (String c ""), s, gs'. repeat split.
    + discriminate.
    + cbn. rewrite Hc. reflexivity.
    + exact Hk.
Qed.

Ltac invert_group H :=
  cbn [Re.match_] in H;
  apply plus_sound in H;
  let p := fresh "g" in
  let rest := fresh "rest" in
  let gs := fresh "groups" in
  let Hg := fresh "Hg" in
  let Hk := fresh "Hk" in
  destruct H as (p & rest & gs & -> & Hg & -> & Hk);
  cbn [append] in *.

Ltac invert_literal H :=
  cbn [Re.match_] in H;
  match type of H with
  | match Re.strip_prefix ?p ?s with _ => _ end = _ =>
      let s' := fresh "s" in
      let Hs := fresh "Hs" in
      destruct (Re.strip_prefix p s) as [s'|] eqn:Hs; [|discriminate H];
      apply strip_prefix_sound in Hs; subst
  end.

Lemma match_pattern_sound (s : string) (groups : list string) :
  Re.match_ pattern s = Some groups ->
  exists tx ty tb g tw td tok trail : string,
    groups = [tx; ty; tb; g; tw; td; tok]
    /\ s = ("X-" ++ tx ++ "-Y-" ++ ty ++ "-BAT-" ++ tb ++ "-GYR-[" ++ g
            ++ "]-WIND-" ++ tw ++ "-DUST-" ++ td ++ "-SENS-" ++ tok
            ++ trail)%string
    /\ group_text signed_class tx
    /\ group_text signed_class ty
    /\ group_text unsigned_class tb
    /\ group_text gyro_class g
    /\ group_text unsigned_class tw
    /\ group_text unsigned_class td
    /\ group_text Re.word tok.
Proof.
  unfold pattern. intro H.
  invert_literal H. invert_group H.
  invert_literal Hk. invert_group Hk.
  invert_literal Hk0. invert_group Hk0.
  invert_literal Hk. invert_group Hk.
  invert_literal Hk0. invert_group Hk0.
  invert_literal Hk. invert_group Hk.
  invert_literal Hk0. invert_group Hk0.
  cbn in Hk. injection Hk as <-.
  do 8 eexists. split; [reflexivity|]. split; [reflexivity|].
  repeat (split; [eassumption|]). eassumption.
Qed.

Lemma build_record_ok (g1 g2 g3 g4 g5 g6 g7 : string) (r : telemetry_record) :
  build_record g1 g2 g3 g4 g5 g6 g7 = Ok r ->
  Str.float g1 = Ok (x r)
  /\ Str.float g2 = Ok (y r)
  /\ Str.float g3 = Ok (battery r)
  /\ map_result Str.float (Str.split_comma g4) = Ok (gyro r)
  /\ Str.float g5 = Ok (wind r)
  /\ Str.float g6 = Ok (dust r)
  /\ g7 = sensor r.
Proof.
  unfold build_record.
  destruct (Str.float g1) as [vx|]; [|discriminate].
  destruct (Str.float g2) as [vy|]; [|discriminate].
  destruct (Str.float g3) as [vb|]; [|discriminate].
  destruct (map_result Str.float (Str.split_comma g4)) as [vg|];
    [|discriminate].
  destruct (Str.float g5) as [vw|]; [|discriminate].
  destruct (Str.float g6) as [vd|]; [|discriminate].
  cbn [bind]. intro H. injection H as <-. cbn. repeat split.
Qed.

Lemma parse_telemetry_some (s : string) (r : telemetry_record) :
  parse_telemetry s = Some r ->
  exists g1 g2 g3 g4 g5 g6 g7 : string,
    Re.match_ pattern s = Some [g1; g2; g3; g4; g5; g6; g7]
    /\ build_record g1 g2 g3 g4 g5 g6 g7 = Ok r.
Proof.
  unfold parse_telemetry. intro H.
  destruct (Re.match_ pattern s)
    as [[|g1 [|g2 [|g3 [|g4 [|g5 [|g6 [|g7 [|]]]]]]]]|];
    try discriminate H.
  destruct (build_record g1 g2 g3 g4 g5 g6 g7) as [r'|] eqn:Hb;
    [|discriminate H].
  injection H as ->. do 7 eexists. split; [reflexivity | exact Hb].
Qed.

Lemma parse_telemetry_shape (s : string) (r : telemetry_record) :
  parse_telemetry s = Some r ->
  exists tx ty tb g tw td trail : string,
    s = ("X-" ++ tx ++ "-Y-" ++ ty ++ "-BAT-" ++ tb ++ "-GYR-[" ++ g
         ++ "]-WIND-" ++ tw ++ "-DUST-" ++ td ++ "-SENS-" ++ sensor r
         ++ trail)%string
    /\ (group_text signed_class tx /\ Str.float tx = Ok (x r))
    /\ (group_text signed_class ty /\ Str.float ty = Ok (y r))
    /\ (group_text unsigned_class tb /\ Str.float tb = Ok (battery r))
    /\ (group_text gyro_class g
        /\ map_result Str.float (Str.split_comma g) = Ok (gyro r))
    /\ (group_text unsigned_class tw /\ Str.float tw = Ok (wind r))
    /\ (group_text unsigned_class td /\ Str.float td = Ok (dust r))
    /\ group_text Re.word (sensor r).
Proof.
  intro H.
  destruct (parse_telemetry_some s r H)
    as (g1 & g2 & g3 & g4 & g5 & g6 & g7 & Hm & Hb).
  destruct (match_pattern_sound s _ Hm)
    as (tx & ty & tb & g & tw & td & tok & trail & Heq & -> & Hx & Hy & Hbt
        & Hg & Hw & Hd & Htok).
  injection Heq as -> -> -> -> -> -> ->.
  destruct (build_record_ok _ _ _ _ _ _ _ r Hb)
    as (Fx & Fy & Fb & Fg & Fw & Fd & ->).
  exists tx, ty, tb, g, tw, td, trail.
  repeat split; try assumption; try (apply Hx || apply Hy || apply Hbt
    || apply Hg || apply Hw || apply Hd || apply Htok).
Qed.

(** The decoder accepts nothing but the grammar: a decoded string starts with
    the seven segments in their order, each field within its character
    class, and the record holds what [float] reads in the numeric fields and
    the token itself as the sensor.  What follows the token is free. *)
Theorem decode_sound (s : string) (r : telemetry_record) :
  parse_telemetry s = Some r ->
  exists tx ty tb g tw td trail : string,
    s = ("X-" ++ tx ++ "-Y-" ++ ty ++ "-BAT-" ++ tb ++ "-GYR-[" ++ g
         ++ "]-WIND-" ++ tw ++ "-DUST-" ++ td ++ "-SENS-" ++ sensor r
         ++ trail)%string
    /\ (group_text signed_class tx /\ Str.float tx = Ok (x r))
    /\ (group_text signed_class ty /\ Str.float ty = Ok (y r))
    /\ (group_text unsigned_class tb /\ Str.float tb = Ok (battery r))
    /\ (group_text gyro_class g
        /\ map_result Str.float (Str.split_comma g) = Ok (gyro r))
    /\ (group_text unsigned_class tw /\ Str.float tw = Ok (wind r))
    /\ (group_text unsigned_class td /\ Str.float td = Ok (dust r))
    /\ group_text Re.word (sensor r).
Proof.
  exact (parse_telemetry_shape s r).
Qed.

Lemma decode_sound_witness :
  exists tx ty tb g tw td trail : string,
    "X--1.5-Y-2.0-BAT-50.0-GYR-[0.1,-0.2,0.3]-WIND-1.0-DUST-1.5-SENS-RED;;"%string
    = ("X-" ++ tx ++ "-Y-" ++ ty ++ "-BAT-" ++ tb ++ "-GYR-[" ++ g
       ++ "]-WIND-" ++ tw ++ "-DUST-" ++ td ++ "-SENS-" ++ "RED"
       ++ trail)%string
    /\ Str.float tx = Ok (Fin (-1.5))
    /\ Str.float tb = Ok (Fin 50.0).
Proof.
  destruct (decode_sound
    "X--1.5-Y-2.0-BAT-50.0-GYR-[0.1,-0.2,0.3]-WIND-1.0-DUST-1.5-SENS-RED;;"
    (finite_record (-1.5) 2.0 50.0 [0.1; -0.2; 0.3] 1.0 1.5 "RED") eq_refl)
    as (tx & ty & tb & g & tw & td & trail & Hs & [_ Hx] & _ & [_ Hb] & _).
  exists tx, ty, tb, g, tw, td, trail.
  split; [exact Hs|]. split; [exact Hx | exact Hb].
Defined.

(** ** What every decoded record satisfies *)

Lemma digit_value_nonneg (c : ascii) :
  Re.digit c = true -> (0 <= Str.digit_value c)%Z.
Proof.
  unfold Re.digit, Str.digit_value. intro H.
  apply andb_true_iff in H. destruct H as [H _].
  apply Nat.leb_le in H. lia.
Qed.

Lemma digits_nonneg (s : string) :
  forall (acc : Z) (n : nat),
    (0 <= acc)%Z -> (0 <= fst (fst (Str.digits s acc n)))%Z.
Proof.
  induction s as [|c s IH]; intros acc n Hacc; cbn [Str.digits];
    [exact Hacc|].
  destruct (Re.digit c) eqn:Hc; [|exact Hacc].
  apply IH. pose proof (digit_value_nonneg c Hc). lia.
Qed.

Lemma Qmake_nonneg (m : Z) (p : positive) : (0 <= m)%Z -> 0 <= m # p.
Proof.
  intro H. unfold Qle. cbn. lia.
Qed.

Lemma decimal_nonneg (t : string) (q : Q) : Str.decimal t = Ok q -> 0 <= q.
Proof.
  unfold Str.decimal.
  pose proof (digits_nonneg t 0 0 (Z.le_refl 0)) as H1.
  destruct (Str.digits t 0 0) as [[i n1] rest]. cbn [fst] in H1.
  assert (H2 : forall r : string, (0 <= fst (fst (Str.digits r i 0)))%Z)
    by (intro r; apply digits_nonneg, H1).
  destruct rest as [|c r].
  - destruct (n1 + 0 =? 0)%nat; [discriminate|].
    intro H. injection H as <-. apply Qmake_nonneg, H1.
  - destruct (Ascii.eqb c ".").
    + specialize (H2 r). destruct (Str.digits r i 0) as [[m n2] rest'].
      cbn [fst] in H2. destruct rest'; [|discriminate].
      destruct (n1 + n2 =? 0)%nat; [discriminate|].
      intro H. injection H as <-. apply Qmake_nonneg, H2.
    + discriminate.
Qed.

(** A text without a sign is read as a number that is not negative. *)
Lemma unsigned_float_nonneg (t : string) (v : double) :
  all_in unsigned_class t = true -> Str.float t = Ok v -> of_int 0 <=d v.
Proof.
  intros Hall H. destruct t as [|c t].
  - discriminate H.
  - cbn in Hall. apply andb_true_iff in Hall. destruct Hall as [Hc _].
    unfold Str.float in H. rewrite (unsigned_not_minus c Hc) in H.
    destruct (Str.decimal (String c t)) as [q|e] eqn:Hd; [|discriminate H].
    cbn in H. injection H as <-.
    apply of_exact_nonneg. exact (decimal_nonneg _ _ Hd).
Qed.

(** [float] never returns nan on these texts. *)
Lemma float_not_nan (t : string) (v : double) :
  Str.float t = Ok v -> v <> NaN.
Proof.
  assert (Hneg : forall q : Q, dneg (of_exact q) <> NaN).
  { intros q H. pose proof (of_exact_not_nan q) as Hn.
    destruct (of_exact q); try discriminate H. contradiction. }
  unfold Str.float. destruct t as [|c t].
  - destruct (Str.decimal "") as [q|e]; [|discriminate].
    cbn. intro H. injection H as <-. apply of_exact_not_nan.
  - destruct (Ascii.eqb c "-").
    + destruct (Str.decimal t) as [q|e]; [|discriminate].
      cbn. intro H. injection H as <-. apply Hneg.
    + destruct (Str.decimal (String c t)) as [q|e]; [|discriminate].
      cbn. intro H. injection H as <-. apply of_exact_not_nan.
Qed.

(** A finite value returned by [float] is below the overflow threshold. *)
Lemma float_fin_bounded (t : string) (q : Q) :
  Str.float t = Ok (Fin q) -> Qabs q < overflow_threshold.
Proof.
  assert (Hpos : forall p d : Q, of_exact p = Fin d ->
                                 Qabs d < overflow_threshold).
  { intros p d H. destruct (of_exact_fin_inv _ _ H) as [-> Hb]. exact Hb. }
  assert (Hneg : forall p d : Q, dneg (of_exact p) = Fin d ->
                                 Qabs d < overflow_threshold).
  { intros p d H. destruct (of_exact p) as [p'| | |] eqn:E;
      try discriminate H.
    cbn in H. injection H as <-. rewrite Qabs_opp. exact (Hpos _ _ E). }
  unfold Str.float. destruct t as [|c t].
  - destruct (Str.decimal "") as [p|e]; [|discriminate].
    cbn. intro H. injection H as H. exact (Hpos _ _ H).
  - destruct (Ascii.eqb c "-").
    + destruct (Str.decimal t) as [p|e]; [|discriminate].
      cbn. intro H. injection H as H. exact (Hneg _ _ H).
    + destruct (Str.decimal (String c t)) as [p|e]; [|discriminate].
      cbn. intro H. injection H as H. exact (Hpos _ _ H).
Qed.

Lemma map_result_forall {A B : Type} (f : A -> result B) (P : B -> Prop)
  (l : list A) :
  (forall (a : A) (b : B), f a = Ok b -> P b) ->
  forall l' : list B, map_result f l = Ok l' -> Forall P l'.
Proof.
  intro Hf. induction l as [|a l IH]; intros l' H; cbn in H.
  - injection H as <-. constructor.
  - destruct (f a) as [b|] eqn:Hb; [|discriminate H]. cbn in H.
    destruct (map_result f l) as [bs|]; [|discriminate H]. cbn in H.
    injection H as <-. constructor; [exact (Hf a b Hb) | apply IH; reflexivity].
Qed.

Lemma map_result_length {A B : Type} (f : A -> result B) (l : list A) :
  forall l' : list B,
    map_result f l = Ok l' -> List.length l' = List.length l.
Proof.
  induction l as [|a l IH]; intros l' H; cbn in H.
  - injection H as <-. reflexivity.
  - destruct (f a) as [b|]; [|discriminate H]. cbn in H.
    destruct (map_result f l) as [bs|]; [|discriminate H]. cbn in H.
    injection H as <-. cbn. rewrite (IH bs eq_refl). reflexivity.
Qed.

Lemma split_comma_not_nil (s : string) : Str.split_comma s <> [].
Proof.
  destruct s as [|c s]; cbn; [discriminate|].
  destruct (Ascii.eqb c ","); [discriminate|].
  destruct (Str.split_comma s); discriminate.
Qed.

(** What the decoder guarantees of every number of a record: it is not nan,
    and when it is finite it is below the overflow threshold. *)
Lemma decoded_numbers (s : string) (r : telemetry_record) :
  parse_telemetry s = Some r ->
  nan_free r
  /\ (forall q : Q, y r = Fin q -> Qabs q < overflow_threshold).
Proof.
  intro H.
  destruct (parse_telemetry_shape s r H)
    as (tx & ty & tb & g & tw & td & trail & _ & [_ Fx] & [_ Fy] & [_ Fb]
        & [_ Fg] & [_ Fw] & [_ Fd] & _).
  split.
  - unfold nan_free. repeat split;
      try (eapply float_not_nan; eassumption).
    intro Hin.
    pose proof (map_result_forall Str.float (fun v => v <> NaN) _
                  float_not_nan _ Fg) as Hall.
    rewrite Forall_forall in Hall. exact (Hall NaN Hin eq_refl).
  - intros q Hq. rewrite Hq in Fy. exact (float_fin_bounded ty q Fy).
Qed.

(** Whatever string it comes from, a decoded record has a battery, a wind and
    a dust that are not negative, at least one gyro component, a sensor token
    of one or more word characters, and no nan among its numbers. *)
Theorem decoded_record_facts (s : string) (r : telemetry_record) :
  parse_telemetry s = Some r ->
  of_int 0 <=d battery r
  /\ of_int 0 <=d wind r
  /\ of_int 0 <=d dust r
  /\ gyro r <> []
  /\ is_token (sensor r) = true
  /\ nan_free r.
Proof.
  intro H.
  destruct (parse_telemetry_shape s r H)
    as (tx & ty & tb & g & tw & td & trail & _ & _ & _ & [[_ Hb] Fb]
        & [_ Fg] & [[_ Hw] Fw] & [[_ Hd] Fd] & [Hne Htok]).
  split; [exact (unsigned_float_nonneg tb _ Hb Fb)|].
  split; [exact (unsigned_float_nonneg tw _ Hw Fw)|].
  split; [exact (unsigned_float_nonneg td _ Hd Fd)|].
  split.
  { intro Hnil. apply map_result_length in Fg. rewrite Hnil in Fg.
    apply (split_comma_not_nil g).
    destruct (Str.split_comma g); [reflexivity | discriminate Fg]. }
  split.
  { unfold is_token. rewrite Htok.
    destruct (String.eqb_spec (sensor r) ""); [contradiction | reflexivity]. }
  exact (proj1 (decoded_numbers s r H)).
Qed.

Lemma decoded_record_facts_witness :
  let r := finite_record 1.0 2.0 0 [0.1] 1.0 1.5 "GREEN" in
  of_int 0 <=d battery r /\ of_int 0 <=d wind r /\ of_int 0 <=d dust r
  /\ gyro r <> [] /\ is_token (sensor r) = true /\ nan_free r.
Proof.
  intro r.
  apply (decoded_record_facts
           "X-1.0-Y-2.0-BAT-0-GYR-[0.1]-WIND-1.0-DUST-1.5-SENS-GREEN" r).
  reflexivity.
Defined.

(** ** Texts of the grammar and malformed numbers *)

(** On every text laid out as the pattern the decoder returns the numbers
    written, for any positive number of gyro components; text after the token
    that does not continue it is ignored. *)
Theorem decode_any_count_and_trailing_text (fx fy : bool * string)
  (db : string) (gs : list (bool * string)) (dw dd tok trail : string) :
  is_decimal (snd fx) = true ->
  is_decimal (snd fy) = true ->
  is_decimal db = true ->
  gs <> [] ->
  forallb (fun f => is_decimal (snd f)) gs = true ->
  is_decimal dw = true ->
  is_decimal dd = true ->
  is_token tok = true ->
  starts_outside Re.word trail = true ->
  let text :=
    telemetry_text (signed_text fx) (signed_text fy) db (map signed_text gs)
      dw dd tok in
  let r :=
    mkTelemetry (signed_value fx) (signed_value fy) (float_value db)
      (map signed_value gs) (float_value dw) (float_value dd) tok in
  parse_telemetry (text trail) = Some r
  /\ parse_telemetry (text EmptyString) = Some r
  /\ List.length (gyro r) = List.length gs.
Proof.
  intros Hx Hy Hb Hne Hgs Hw Hd Htok Htrail text r.
  split; [|split].
  - apply parse_telemetry_fields; assumption.
  - apply parse_telemetry_fields; auto.
  - apply length_map.
Qed.

Lemma decode_any_count_and_trailing_text_witness :
  let r := finite_record 1.0 (-2.0) 50.0 [0.1; -0.2; 0.3; 0.4; 0.5] 1.0 1.5
             "GREEN" in
  parse_telemetry
    "X-1.0-Y--2.0-BAT-50.0-GYR-[0.1,-0.2,0.3,0.4,0.5]-WIND-1.0-DUST-1.5-SENS-GREEN-X-9"
  = Some r
  /\ parse_telemetry
       "X-1.0-Y--2.0-BAT-50.0-GYR-[0.1,-0.2,0.3,0.4,0.5]-WIND-1.0-DUST-1.5-SENS-GREEN"
     = Some r
  /\ List.length (gyro r) = 5%nat.
Proof.
  intro r.
  apply (decode_any_count_and_trailing_text
           (false, "1.0"%string) (true, "2.0"%string) "50.0"
           [(false, "0.1"%string); (true, "0.2"%string);
            (false, "0.3"%string); (false, "0.4"%string);
            (false, "0.5"%string)]
           "1.0" "1.5" "GREEN" "-X-9"); reflexivity || discriminate.
Defined.

Lemma map_result_raises {A B : Type} (f : A -> result B) (l : list A)
  (a : A) :
  In a l -> raises (f a) -> raises (map_result f l).
Proof.
  intros Hin [e He]. induction l as [|b l IH]; [contradiction|].
  cbn. destruct (f b) as [vb|eb] eqn:Hb; [|exists eb; reflexivity].
  cbn. destruct Hin as [->|Hin].
  - rewrite He in Hb. discriminate Hb.
  - destruct (IH Hin) as [e' ->]. exists e'. reflexivity.
Qed.

(** All or nothing: when the seven segments are in place and every field is
    within its character class, one text that [float] refuses (as [1.2.3],
    [--5], [.], or an empty gyro piece) is enough for the decoder to return
    nothing. *)
Theorem decode_rejects_malformed_number
  (tx ty tb g tw td tok trail : string) :
  group_text signed_class tx ->
  group_text signed_class ty ->
  group_text unsigned_class tb ->
  group_text gyro_class g ->
  group_text unsigned_class tw ->
  group_text unsigned_class td ->
  group_text Re.word tok ->
  starts_outside Re.word trail = true ->
  raises (Str.float tx) \/ raises (Str.float ty) \/ raises (Str.float tb)
  \/ (exists piece : string,
         In piece (Str.split_comma g) /\ raises (Str.float piece))
  \/ raises (Str.float tw) \/ raises (Str.float td) ->
  parse_telemetry
    ("X-" ++ tx ++ "-Y-" ++ ty ++ "-BAT-" ++ tb ++ "-GYR-[" ++ g
     ++ "]-WIND-" ++ tw ++ "-DUST-" ++ td ++ "-SENS-" ++ tok ++ trail)
  = None.
Proof.
  intros Hx Hy Hb Hg Hw Hd Htok Htrail Hbad.
  unfold parse_telemetry. rewrite match_pattern_fields by assumption.
  assert (Hr : raises (build_record tx ty tb g tw td tok)).
  { unfold build_record.
    destruct (Str.float tx) as [vx|ex]; [|exists ex; reflexivity].
    destruct (Str.float ty) as [vy|ey]; [|exists ey; reflexivity].
    destruct (Str.float tb) as [vb|eb]; [|exists eb; reflexivity].
    destruct (map_result Str.float (Str.split_comma g)) as [vg|eg] eqn:Eg;
      [|exists eg; reflexivity].
    destruct (Str.float tw) as [vw|ew]; [|exists ew; reflexivity].
    destruct (Str.float td) as [vd|ed]; [|exists ed; reflexivity].
    exfalso.
    destruct Hbad as [[e H]|[[e H]|[[e H]|[(piece & Hin & H)|[[e H]|[e H]]]]]];
      try discriminate H.
    destruct (map_result_raises Str.float _ piece Hin H) as [e He].
    rewrite He in Eg. discriminate Eg. }
  destruct Hr as [e ->]. reflexivity.
Qed.

Lemma decode_rejects_malformed_number_witness :
  parse_telemetry
    "X-1.2.3-Y-2.0-BAT-50.0-GYR-[0.1,,0.3]-WIND-1.0-DUST-1.5-SENS-GREEN"
  = None.
Proof.
  apply (decode_rejects_malformed_number "1.2.3" "2.0" "50.0" "0.1,,0.3"
           "1.0" "1.5" "GREEN" "");
    try (split; [discriminate | reflexivity]); try reflexivity.
  left. exists ValueError. reflexivity.
Defined.


(** * Further properties of the crash check *)

Lemma pow_two_raises (a : double) (e : exn) :
  pow_two a = Raise e <-> e = OverflowError /\ square_overflows a.
Proof.
  unfold square_overflows. destruct a as [q| | |]; cbn.
  - destruct (Qle_bool overflow_threshold (q * q)) eqn:E.
    + split.
      * intro H. injection H as <-. split; [reflexivity|].
        exists q. split; [reflexivity|]. apply Qle_bool_iff, E.
      * intros [-> _]. reflexivity.
    + split; [discriminate|].
      intros (_ & q' & Hq & Ho). injection Hq as <-.
      apply Qle_bool_iff in Ho. congruence.
  - split; [discriminate|]. intros (_ & q & Hq & _). discriminate Hq.
  - split; [discriminate|]. intros (_ & q & Hq & _). discriminate Hq.
  - split; [discriminate|]. intros (_ & q & Hq & _). discriminate Hq.
Qed.

Lemma pow_two_ok (a v : double) :
  pow_two a = Ok v -> ~ square_overflows a.
Proof.
  intros H Ho.
  assert (Hr : pow_two a = Raise OverflowError)
    by (apply pow_two_raises; split; [reflexivity | exact Ho]).
  rewrite H in Hr. discriminate Hr.
Qed.

(** [check_crash] fails when none of the tests placed before the unpacking
    returns first, and in two ways only: a ValueError from the unpacking when
    the gyro list has not three entries, and an OverflowError from [**] when
    it has three and the square of one of them overflows.  A record that
    trips an earlier test is reported crashed without an error. *)
Theorem check_crash_raises_iff (r : telemetry_record) (e : exn) :
  check_crash r = Raise e
  <-> crashed_before_unpack r = false
      /\ ((e = ValueError /\ List.length (gyro r) <> 3%nat)
          \/ (e = OverflowError
              /\ exists gx gy gz : double,
                   gyro r = [gx; gy; gz]
                   /\ (square_overflows gx \/ square_overflows gy
                       \/ square_overflows gz))).
Proof.
  rewrite check_crash_tests.
  destruct (crashed_before_unpack r).
  { split; [discriminate|]. intros [H _]. discriminate H. }
  destruct (unpack3_raises (gyro r)) as [(gx & gy & gz & Hg & ->)|[Hlen ->]];
    cbn [bind].
  - assert (Hinj : forall gx' gy' gz' : double,
               gyro r = [gx'; gy'; gz'] -> gx' = gx /\ gy' = gy /\ gz' = gz).
    { intros gx' gy' gz' H. rewrite Hg in H. injection H as <- <- <-.
      repeat split. }
    destruct (pow_two gx) as [gx2|ex] eqn:Ex; cbn [bind].
    2:{ apply pow_two_raises in Ex. destruct Ex as [-> Ex]. split.
        - intro H. injection H as <-. split; [reflexivity|]. right.
          split; [reflexivity|]. exists gx, gy, gz. split; [exact Hg|].
          left. exact Ex.
        - intros [_ [[_ Hl]|[-> _]]]; [|reflexivity].
          rewrite Hg in Hl. contradiction Hl. reflexivity. }
    destruct (pow_two gy) as [gy2|ey] eqn:Ey; cbn [bind].
    2:{ apply pow_two_raises in Ey. destruct Ey as [-> Ey]. split.
        - intro H. injection H as <-. split; [reflexivity|]. right.
          split; [reflexivity|]. exists gx, gy, gz. split; [exact Hg|].
          right; left. exact Ey.
        - intros [_ [[_ Hl]|[-> _]]]; [|reflexivity].
          rewrite Hg in Hl. contradiction Hl. reflexivity. }
    destruct (pow_two gz) as [gz2|ez] eqn:Ez; cbn [bind].
    2:{ apply pow_two_raises in Ez. destruct Ez as [-> Ez]. split.
        - intro H. injection H as <-. split; [reflexivity|]. right.
          split; [reflexivity|]. exists gx, gy, gz. split; [exact Hg|].
          right; right. exact Ez.
        - intros [_ [[_ Hl]|[-> _]]]; [|reflexivity].
          rewrite Hg in Hl. contradiction Hl. reflexivity. }
    split; [discriminate|].
    intros [_ [[_ Hl]|(_ & gx' & gy' & gz' & Hg' & Ho)]].
    + rewrite Hg in Hl. contradiction Hl. reflexivity.
    + destruct (Hinj _ _ _ Hg') as (-> & -> & ->).
      exfalso. destruct Ho as [Ho|[Ho|Ho]].
      * exact (pow_two_ok _ _ Ex Ho).
      * exact (pow_two_ok _ _ Ey Ho).
      * exact (pow_two_ok _ _ Ez Ho).
  - split.
    + intro H. injection H as <-. split; [reflexivity|]. left.
      split; [reflexivity | exact Hlen].
    + intros [_ [[-> _]|(_ & gx & gy & gz & Hg & _)]]; [reflexivity|].
      rewrite Hg in Hlen. contradiction Hlen. reflexivity.
Qed.

Lemma check_crash_raises_iff_witness :
  check_crash (finite_record 0 10 50 [0.1; 0.2] 0 0 "GREEN")
  = Raise ValueError
  /\ check_crash (finite_record 0 10 50 [inject_Z (10 ^ 200); 0; 0] 0 0
                    "GREEN")
     = Raise OverflowError
  /\ check_crash (finite_record 0 10 0 [0.1; 0.2] 0 0 "GREEN")
     <> Raise ValueError.
Proof.
  split; [|split].
  - apply (check_crash_raises_iff
             (finite_record 0 10 50 [0.1; 0.2] 0 0 "GREEN") ValueError).
    split; [reflexivity|]. left. split; [reflexivity | discriminate].
  - apply (check_crash_raises_iff
             (finite_record 0 10 50 [inject_Z (10 ^ 200); 0; 0] 0 0 "GREEN")
             OverflowError).
    split; [reflexivity|]. right. split; [reflexivity|].
    exists (Fin (inject_Z (10 ^ 200))), (Fin 0), (Fin 0).
    split; [reflexivity|]. left.
    exists (inject_Z (10 ^ 200)). split; [reflexivity|].
    vm_compute. discriminate.
  - intro H.
    apply (check_crash_raises_iff
             (finite_record 0 10 0 [0.1; 0.2] 0 0 "GREEN") ValueError) in H.
    destruct H as [Hb _]. discriminate Hb.
Defined.

Lemma dle_false_lt (a b : double) :
  a <> NaN -> b <> NaN -> dle a b = false -> b <d a.
Proof.
  destruct a as [p| | |], b as [q| | |]; cbn; intros Ha Hb H;
    try discriminate; try reflexivity; try contradiction.
  reflect_tests. apply Qltb_lt, H.
Qed.

Lemma dlt_false_le (a b : double) :
  a <> NaN -> b <> NaN -> dlt a b = false -> b <=d a.
Proof.
  destruct a as [p| | |], b as [q| | |]; cbn; intros Ha Hb H;
    try discriminate; try reflexivity; try contradiction.
  reflect_tests. apply Qle_bool_iff, H.
Qed.

Lemma of_int_not_nan (z : Z) : of_int z <> NaN.
Proof. discriminate. Qed.

Lemma of_exact_above (v : Q) :
  0 <= v -> of_exact v = PInf \/ of_exact v = Fin v.
Proof.
  intro H. unfold of_exact.
  destruct (Qle_bool overflow_threshold v); [left; reflexivity|].
  destruct (Qle_bool v (- overflow_threshold)) eqn:E; [|right; reflexivity].
  reflect_tests. pose proof threshold_pos. lra.
Qed.

Lemma squares_sum2 (a b : Q) : 0 <= a * a + b * b.
Proof. nra. Qed.

Lemma squares_sum3 (a b c : Q) : 0 <= a * a + b * b + c * c.
Proof. nra. Qed.

(** Three squares whose sum does not pass the tilt test. *)
Lemma tilt_test_false (gx gy gz gx2 gy2 gz2 : double) :
  gx <> NaN -> gy <> NaN -> gz <> NaN ->
  pow_two gx = Ok gx2 -> pow_two gy = Ok gy2 -> pow_two gz = Ok gz2 ->
  pow_half_gt (dadd (dadd gx2 gy2) gz2) 1 = false ->
  exists p q t : Q,
    gx = Fin p /\ gy = Fin q /\ gz = Fin t
    /\ p * p + q * q + t * t <= 1.
Proof.
  intros Nx Ny Nz Hx Hy Hz H.
  assert (Hsq : forall (g g2 : double),
             g <> NaN -> pow_two g = Ok g2 ->
             g2 = PInf \/ exists p : Q, g = Fin p /\ g2 = Fin (p * p)).
  { intros g g2 Hn Hp. destruct g as [p| | |]; cbn in Hp.
    - destruct (Qle_bool overflow_threshold (p * p)); [discriminate Hp|].
      injection Hp as <-. right. exists p. split; reflexivity.
    - injection Hp as <-. left. reflexivity.
    - injection Hp as <-. left. reflexivity.
    - contradiction. }
  destruct (Hsq gx gx2 Nx Hx) as [->|(p & -> & ->)];
    destruct (Hsq gy gy2 Ny Hy) as [->|(q & -> & ->)];
    destruct (Hsq gz gz2 Nz Hz) as [->|(t & -> & ->)];
    cbn [dadd] in H;
    repeat match type of H with
      | context [of_exact ?v] =>
          let E := fresh "E" in
          let P := fresh "P" in
          assert (P : 0 <= v)
            by first [apply squares_sum2 | apply squares_sum3
                     | apply square_nonneg];
          destruct (of_exact_above v P) as [E|E]; rewrite E in H;
          clear E P; cbn [dadd] in H
      end;
    try discriminate H.
  exists p, q, t. repeat split.
  rewrite pow_half_gt_one in H. reflect_tests. exact H.
Qed.

Lemma double_nan_dec (d : double) : d = NaN \/ d <> NaN.
Proof.
  destruct d; [right; discriminate | right; discriminate
              | right; discriminate | left; reflexivity].
Qed.

Lemma check_crash_false_bounds (r : telemetry_record) :
  check_crash r = Ok false ->
  List.length (gyro r) = 3%nat
  /\ (In NaN (gyro r)
      \/ exists gx gy gz : Q,
           gyro r = [Fin gx; Fin gy; Fin gz]
           /\ Qabs gx <= 1 /\ Qabs gy <= 1 /\ Qabs gz <= 1)
  /\ (battery r = NaN \/ of_int 0 <d battery r)
  /\ (y r = NaN
      \/ (of_int 0 <=d y r
          /\ (sensor r = "RED"%string -> y r <=d of_int 3)
          /\ (sensor r = "YELLOW"%string -> y r <=d of_int 1000)))
  /\ (x r = NaN \/ exists xq : Q, x r = Fin xq /\ Qabs xq <= 100000).
Proof.
  intro Hc.
  destruct (check_crash_false_inv r Hc)
    as (He & gx & gy & gz & gx2 & gy2 & gz2 & Hg & Hx & Hy & Hz & Ht).
  destruct (crashed_before_unpack_false r He)
    as (Hb & Hred & Hyel & Hy0 & Hlat).
  split; [rewrite Hg; reflexivity|].
  split.
  { rewrite Hg.
    destruct (double_nan_dec gx) as [->|Nx]; [left; left; reflexivity|].
    destruct (double_nan_dec gy) as [->|Ny];
      [left; right; left; reflexivity|].
    destruct (double_nan_dec gz) as [->|Nz];
      [left; right; right; left; reflexivity|].
    destruct (tilt_test_false gx gy gz gx2 gy2 gz2 Nx Ny Nz Hx Hy Hz Ht)
      as (p & q & t & -> & -> & -> & Hs).
    right. exists p, q, t. split; [reflexivity|].
    pose proof (square_nonneg p). pose proof (square_nonneg q).
    pose proof (square_nonneg t).
    repeat split; apply square_le_one; lra. }
  split.
  { destruct (double_nan_dec (battery r)) as [E|N]; [left; exact E|].
    right. apply dle_false_lt; [exact N | discriminate | exact Hb]. }
  split.
  { destruct (double_nan_dec (y r)) as [E|N]; [left; exact E|].
    right. split; [|split].
    - apply dlt_false_le; [exact N | discriminate | exact Hy0].
    - intro Hs. rewrite Hs in Hred. cbn [String.eqb Ascii.eqb Bool.eqb andb]
        in Hred.
      apply dlt_false_le; [discriminate | exact N | exact Hred].
    - intro Hs. rewrite Hs in Hyel.
      cbn [String.eqb Ascii.eqb Bool.eqb andb] in Hyel.
      apply dlt_false_le; [discriminate | exact N | exact Hyel]. }
  destruct (x r) as [xq| | |]; cbn [dabs dlt] in Hlat;
    try discriminate Hlat; [|left; reflexivity].
  right. exists xq. split; [reflexivity|].
  reflect_tests. exact Hlat.
Qed.

(** What "not crashed" guarantees to the code that follows.  The gyro list
    has three entries, each a finite value within -1..1 unless one of them is
    nan.  The battery is positive, the altitude is not negative, at most 3
    under RED and at most 1000 under YELLOW, and x is a finite value within
    100000 of the origin; each of these unless the entry is nan, which fails
    no comparison.  An infinite altitude is not excluded outside RED and
    YELLOW. *)
Theorem not_crashed_envelope (r : telemetry_record) :
  check_crash r = Ok false ->
  List.length (gyro r) = 3%nat
  /\ (In NaN (gyro r)
      \/ exists gx gy gz : Q,
           gyro r = [Fin gx; Fin gy; Fin gz]
           /\ Qabs gx <= 1 /\ Qabs gy <= 1 /\ Qabs gz <= 1)
  /\ (battery r = NaN \/ of_int 0 <d battery r)
  /\ (y r = NaN
      \/ (of_int 0 <=d y r
          /\ (sensor r = "RED"%string -> y r <=d of_int 3)
          /\ (sensor r = "YELLOW"%string -> y r <=d of_int 1000)))
  /\ (x r = NaN \/ exists xq : Q, x r = Fin xq /\ Qabs xq <= 100000).
Proof.
  exact (check_crash_false_bounds r).
Qed.

Lemma not_crashed_envelope_witness :
  let r := finite_record 0 3.0 50 [0.5; -0.5; 0.5] 0 0 "RED" in
  List.length (gyro r) = 3%nat
  /\ (In NaN (gyro r)
      \/ exists gx gy gz : Q,
           gyro r = [Fin gx; Fin gy; Fin gz]
           /\ Qabs gx <= 1 /\ Qabs gy <= 1 /\ Qabs gz <= 1)
  /\ (battery r = NaN \/ of_int 0 <d battery r)
  /\ (y r = NaN
      \/ (of_int 0 <=d y r
          /\ (sensor r = "RED"%string -> y r <=d of_int 3)
          /\ (sensor r = "YELLOW"%string -> y r <=d of_int 1000)))
  /\ (x r = NaN \/ exists xq : Q, x r = Fin xq /\ Qabs xq <= 100000).
Proof.
  intro r. apply (not_crashed_envelope r). reflexivity.
Defined.

(** * Further properties of the loop body *)

(** ** When the loop body fails *)

Lemma delta_of_fin (r : telemetry_record) (yq : Q) :
  y r = Fin yq ->
  Qabs (target_of_sensor (sensor r) - yq) < overflow_threshold ->
  delta_of r = Fin (target_of_sensor (sensor r) - yq).
Proof.
  intros Hy H. unfold delta_of, dsub. rewrite Hy. cbn [dneg dadd].
  apply of_exact_fin, H.
Qed.

Lemma control_step_delta_raises (st : state) (r : telemetry_record)
  (gx gy gz : double) (e : exn) :
  gyro r = [gx; gy; gz] ->
  int (delta_of r) = Raise e ->
  control_step st r = Raise e.
Proof.
  intros Hg H. unfold delta_of in H. unfold control_step.
  rewrite Hg. cbn [unpack3 bind].
  unfold of_int at 1 2. rewrite target_of_sensor_inject.
  rewrite H. reflexivity.
Qed.

Lemma control_step_raises_cases (st : state) (r : telemetry_record)
  (e : exn) :
  control_step st r = Raise e
  <-> (e = ValueError /\ (List.length (gyro r) <> 3%nat \/ y r = NaN))
      \/ (e = OverflowError /\ List.length (gyro r) = 3%nat
          /\ (delta_of r = PInf \/ delta_of r = NInf)).
Proof.
  destruct (unpack3_raises (gyro r)) as [(gx & gy & gz & Hg & Hu)|[Hlen Hu]].
  - assert (Hl : List.length (gyro r) = 3%nat) by (rewrite Hg; reflexivity).
    destruct (int (delta_of r)) as [z|e0] eqn:Hint.
    + destruct (int_delta_ok _ _ _ Hint) as (yq & Hy & Hd).
      destruct (control_step_ok st r gx gy gz yq Hg Hy Hd)
        as (alt & a & Hstep & _).
      rewrite Hstep. split; [discriminate|].
      intros [[_ [Hne|Hn]]|(_ & _ & [Hi|Hi])].
      * contradiction.
      * rewrite Hn in Hy. discriminate Hy.
      * rewrite Hi in Hint. discriminate Hint.
      * rewrite Hi in Hint. discriminate Hint.
    + rewrite (control_step_delta_raises st r gx gy gz e0 Hg Hint).
      pose proof (int_delta_raises _ _ _ Hint) as Hcases.
      fold (delta_of r) in Hcases.
      split.
      * intro H. injection H as <-.
        destruct Hcases as [[-> Hi]|[-> Hn]].
        -- right. split; [reflexivity|]. split; assumption.
        -- left. split; [reflexivity|]. right. exact Hn.
      * intros [[-> [Hne|Hn]]|(-> & _ & Hi)].
        -- contradiction.
        -- destruct Hcases as [[-> [Hi|Hi]]|[-> _]]; try reflexivity;
             unfold delta_of in Hi; rewrite Hn in Hi; discriminate Hi.
        -- destruct Hcases as [[-> _]|[-> Hn]]; [reflexivity|].
           unfold delta_of in Hi. rewrite Hn in Hi.
           destruct Hi as [Hi|Hi]; discriminate Hi.
  - unfold control_step. rewrite Hu. cbn [bind]. split.
    + intro H. injection H as <-. left. split; [reflexivity|].
      left. exact Hlen.
    + intros [[-> _]|(_ & Hl & _)]; [reflexivity | contradiction].
Qed.

Lemma not_crashed_finite_no_raise (st : state) (r : telemetry_record) :
  check_crash r = Ok false -> finite (y r) -> ~ raises (control_step st r).
Proof.
  intros Hc (yq & Hy & Hfin) [e He].
  destruct (not_crashed_step st r yq Hc Hy Hfin)
    as (gx & gy & gz & alt & a & _ & Hstep & _).
  rewrite Hstep in He. discriminate He.
Qed.

(** The loop body fails in two ways.  A ValueError comes from its own
    unpacking of the gyro list when the list has not three entries, or from
    [int(delta_y)] when the altitude is nan.  An OverflowError comes from
    [int(delta_y)] when the list has three entries and [delta_y] is
    infinite, as it is when the altitude is.  On a record that [check_crash]
    has found not crashed and whose altitude is finite the loop body does not
    fail: the second unpacking is safe where the loop reaches it. *)
Theorem control_step_raises_iff (st : state) (r : telemetry_record) :
  (forall e : exn,
      control_step st r = Raise e
      <-> (e = ValueError /\ (List.length (gyro r) <> 3%nat \/ y r = NaN))
          \/ (e = OverflowError /\ List.length (gyro r) = 3%nat
              /\ (delta_of r = PInf \/ delta_of r = NInf)))
  /\ (check_crash r = Ok false -> finite (y r) ->
      ~ raises (control_step st r))
  /\ (List.length (gyro r) = 3%nat -> y r = PInf ->
      control_step st r = Raise OverflowError).
Proof.
  split; [|split].
  - intro e. apply control_step_raises_cases.
  - apply not_crashed_finite_no_raise.
  - intros Hl Hy. apply control_step_infinite_y; assumption.
Qed.

Lemma control_step_raises_iff_witness :
  control_step initial_state (finite_record 0 10 50 [0.1] 0 0 "GREEN")
  = Raise ValueError
  /\ ~ raises (control_step initial_state
                 (finite_record 0 10 50 [0.1; 0; 0] 0 0 "GREEN"))
  /\ control_step initial_state
       (mkTelemetry (Fin 0) PInf (Fin 50) [Fin 0; Fin 0; Fin 0] (Fin 0)
          (Fin 0) "GREEN")
     = Raise OverflowError.
Proof.
  split; [|split].
  - apply (control_step_raises_iff initial_state
             (finite_record 0 10 50 [0.1] 0 0 "GREEN")).
    left. split; [reflexivity|]. left. discriminate.
  - apply (control_step_raises_iff initial_state
             (finite_record 0 10 50 [0.1; 0; 0] 0 0 "GREEN")).
    + reflexivity.
    + exists 10. split; reflexivity.
  - apply (control_step_raises_iff initial_state
             (mkTelemetry (Fin 0) PInf (Fin 50) [Fin 0; Fin 0; Fin 0] (Fin 0)
                (Fin 0) "GREEN")); reflexivity.
Defined.

(** ** The altitude command *)

Lemma truncate_nonneg (d : Q) :
  0 <= d ->
  0 <= inject_Z (truncate d) <= d
  /\ (10 <= d -> 10 <= inject_Z (truncate d)).
Proof.
  intro Hd. unfold truncate.
  assert (E : Qle_bool 0 d = true) by (apply Qle_bool_iff, Hd).
  rewrite E. repeat split.
  - change 0 with (inject_Z 0). rewrite <- Zle_Qle.
    rewrite <- (Qfloor_Z 0). apply Qfloor_resp_le, Hd.
  - apply Qfloor_le.
  - intro H. change 10 with (inject_Z 10). rewrite <- Zle_Qle.
    rewrite <- (Qfloor_Z 10). apply Qfloor_resp_le, H.
Qed.

Lemma truncate_neg (d : Q) :
  d < 0 ->
  d <= inject_Z (truncate d) <= 0
  /\ (d <= -10 -> inject_Z (truncate d) <= -10).
Proof.
  intro Hd. unfold truncate.
  assert (E : Qle_bool 0 d = false) by (apply Qle_bool_gt, Hd).
  rewrite E. repeat split.
  - apply Qle_ceiling.
  - change 0 with (inject_Z 0). rewrite <- Zle_Qle.
    rewrite <- (Qceiling_Z 0). apply Qceiling_resp_le.
    apply Qlt_le_weak, Hd.
  - intro H. change (-10) with (inject_Z (-10)). rewrite <- Zle_Qle.
    rewrite <- (Qceiling_Z (-10)). apply Qceiling_resp_le, H.
Qed.

Lemma altitude_spec_facts (s : string) (y : Q) :
  let d := target_of_sensor s - y in
  let a := altitude_spec s y in
  Qabs a <= 100
  /\ Qabs a <= Qabs d
  /\ 0 <= a * d
  /\ (Qabs d < 10 -> a == 0)
  /\ (10 <= Qabs d -> 10 <= Qabs a).
Proof.
  intros d a. unfold a, altitude_spec. fold d.
  destruct (Qabs d <? 10) eqn:E; reflect_tests.
  - pose proof (Qabs_nonneg d).
    repeat split; try (intros; lra); try discriminate.
    exact H.
  - set (m := clamp (inject_Z (Qfloor (Qabs d / 2))) 10 100).
    assert (Hm : 10 <= m <= 100) by (apply clamp_bounds; discriminate).
    set (t := inject_Z (truncate d)).
    assert (Hlo : - m <= m) by lra.
    destruct (Qlt_le_dec d 0) as [Hd|Hd].
    + assert (Habs : Qabs d == - d) by (apply Qabs_neg; lra).
      destruct (truncate_neg d Hd) as [Ht Ht10]. fold t in Ht, Ht10.
      assert (Ht' : t <= -10) by (apply Ht10; lra).
      assert (Ha : d <= clamp t (- m) m <= -10 /\ -100 <= clamp t (- m) m).
      { destruct (clamp_cases t (- m) m Hlo) as [[? ->]|[[? ->]|[? ->]]];
          lra. }
      set (c := clamp t (- m) m) in *.
      assert (Hc : Qabs c == - c) by (apply Qabs_neg; lra).
      repeat split.
      * rewrite Hc. lra.
      * rewrite Hc, Habs. lra.
      * nra.
      * intro H. lra.
      * intros _. rewrite Hc. lra.
    + assert (Habs : Qabs d == d) by (apply Qabs_pos; lra).
      destruct (truncate_nonneg d Hd) as [Ht Ht10]. fold t in Ht, Ht10.
      assert (Ht' : 10 <= t) by (apply Ht10; lra).
      assert (Ha : 10 <= clamp t (- m) m <= d /\ clamp t (- m) m <= 100).
      { destruct (clamp_cases t (- m) m Hlo) as [[? ->]|[[? ->]|[? ->]]];
          lra. }
      set (c := clamp t (- m) m) in *.
      assert (Hc : Qabs c == c) by (apply Qabs_pos; lra).
      repeat split.
      * rewrite Hc. lra.
      * rewrite Hc, Habs. lra.
      * nra.
      * intro H. lra.
      * intros _. rewrite Hc. lra.
Qed.

(** A returned command has a finite altitude computed from a finite
    [delta_y]. *)
Lemma control_step_ok_altitude (st st' : state) (r : telemetry_record)
  (c : Command.t) :
  control_step st r = Ok (st', c) ->
  exists a d : Q,
    value (Command.altitude c) = Fin a
    /\ delta_of r = Fin d
    /\ Qabs a <= 100
    /\ Qabs a <= Qabs d
    /\ 0 <= a * d
    /\ (Qabs d < 10 <-> a == 0)
    /\ (10 <= Qabs d -> 10 <= Qabs a).
Proof.
  intro H.
  destruct (control_step_ok_shape st st' r c H)
    as (gx & gy & gz & yq & alt & a & _ & Hy & Hd & _ & -> & Ha & Haq & _).
  exists a, (target_of_sensor (sensor r) - yq).
  cbn [Command.altitude].
  split; [exact Ha|]. split; [exact (delta_of_fin r yq Hy Hd)|].
  destruct (altitude_spec_facts (sensor r) yq) as (H1 & H2 & H3 & H4 & H5).
  rewrite Haq.
  split; [exact H1|]. split; [exact H2|]. split; [exact H3|].
  split; [split; [exact H4|] | exact H5].
  intro H0. apply Qnot_le_lt. intro Hge. specialize (H5 Hge).
  rewrite H0 in H5. revert H5. apply Qlt_not_le. reflexivity.
Qed.

(** The altitude command is bounded: whenever a command is produced its
    altitude is a finite number of magnitude at most 100, 0 exactly when
    [delta_y] is below 10 in magnitude, and of magnitude at least 10 outside
    this dead band. *)
Theorem altitude_command_bounded (st st' : state) (r : telemetry_record)
  (c : Command.t) :
  control_step st r = Ok (st', c) ->
  exists a d : Q,
    value (Command.altitude c) = Fin a
    /\ delta_of r = Fin d
    /\ Qabs a <= 100
    /\ (Qabs d < 10 <-> a == 0)
    /\ (10 <= Qabs d -> 10 <= Qabs a).
Proof.
  intro H.
  destruct (control_step_ok_altitude st st' r c H)
    as (a & d & Ha & Hd & H1 & _ & _ & H4 & H5).
  exists a, d. repeat split; try assumption; apply H4.
Qed.

Lemma altitude_command_bounded_witness :
  let r := finite_record 0 1500 50 [0; 0; 0] 0 0 "GREEN" in
  let c := Command.mk 4 (Int 100) fwd in
  control_step initial_state r = Ok (mkState fwd 4, c)
  /\ exists a d : Q,
       value (Command.altitude c) = Fin a
       /\ delta_of r = Fin d
       /\ Qabs a <= 100
       /\ (Qabs d < 10 <-> a == 0)
       /\ (10 <= Qabs d -> 10 <= Qabs a).
Proof.
  intros r c. split; [reflexivity|].
  apply (altitude_command_bounded initial_state (mkState fwd 4) r c).
  reflexivity.
Defined.

(** The altitude command never points away from the target and never
    overshoots it: it has the sign of [delta_y] and at most its magnitude. *)
Theorem altitude_command_towards_target (st st' : state)
  (r : telemetry_record) (c : Command.t) :
  control_step st r = Ok (st', c) ->
  exists a d : Q,
    value (Command.altitude c) = Fin a
    /\ delta_of r = Fin d
    /\ 0 <= a * d
    /\ Qabs a <= Qabs d.
Proof.
  intro H.
  destruct (control_step_ok_altitude st st' r c H)
    as (a & d & Ha & Hd & _ & H2 & H3 & _).
  exists a, d. repeat split; assumption.
Qed.

Lemma altitude_command_towards_target_witness :
  let r := finite_record 0 2500 50 [0; 0; 0] 0 0 "GREEN" in
  let c := Command.mk 4 (Int (-100)) fwd in
  control_step initial_state r = Ok (mkState fwd 4, c)
  /\ exists a d : Q,
       value (Command.altitude c) = Fin a
       /\ delta_of r = Fin d
       /\ 0 <= a * d
       /\ Qabs a <= Qabs d.
Proof.
  intros r c. split; [reflexivity|].
  apply (altitude_command_towards_target initial_state (mkState fwd 4) r c).
  reflexivity.
Defined.

(** Under RED or YELLOW a record that is not crashed and whose altitude is
    not nan has a finite altitude, within 0..3 or 0..1000. *)
Lemma zone_altitude_finite (r : telemetry_record) (top : Z) :
  y r <> NaN ->
  dlt (y r) (of_int 0) = false ->
  dlt (of_int top) (y r) = false ->
  exists yq : Q, y r = Fin yq /\ 0 <= yq <= inject_Z top.
Proof.
  intros Hn H0 Htop.
  destruct (y r) as [yq| | |]; cbn [dlt of_int] in *;
    try discriminate; [|contradiction].
  exists yq. split; [reflexivity|]. reflect_tests.
  change (inject_Z 0) with 0 in H0. split; assumption.
Qed.

Lemma not_crashed_zones (st : state) (r : telemetry_record) :
  check_crash r = Ok false ->
  y r <> NaN ->
  (sensor r = "RED"%string ->
   exists (st' : state) (c : Command.t),
     control_step st r = Ok (st', c) /\ Command.altitude c = Int 0)
  /\ (sensor r = "YELLOW"%string ->
      exists (st' : state) (c : Command.t) (a : Q),
        control_step st r = Ok (st', c)
        /\ value (Command.altitude c) = Fin a /\ 0 <= a).
Proof.
  intros Hc Hn.
  destruct (check_crash_false_inv r Hc) as (He & _).
  destruct (crashed_before_unpack_false r He)
    as (_ & Hred & Hyel & Hy0 & _).
  pose proof threshold_above_targets as HT.
  split; intro Hs.
  - rewrite Hs in Hred. cbn [String.eqb Ascii.eqb Bool.eqb andb] in Hred.
    destruct (zone_altitude_finite r 3 Hn Hy0 Hred) as (yq & Hy & Hlo & Hhi).
    change (inject_Z 3) with 3 in Hhi.
    assert (Hfin : Qabs yq < overflow_threshold).
    { rewrite Qabs_pos by exact Hlo. lra. }
    destruct (not_crashed_step st r yq Hc Hy Hfin)
      as (gx & gy & gz & alt & a & _ & Hstep & _ & _ & Hdead).
    eexists. eexists. split; [exact Hstep|].
    cbn [Command.altitude]. apply Hdead.
    rewrite Hs. change (target_of_sensor "RED") with 2.
    apply Qabs_Qlt_condition. split; lra.
  - rewrite Hs in Hyel. cbn [String.eqb Ascii.eqb Bool.eqb andb] in Hyel.
    destruct (zone_altitude_finite r 1000 Hn Hy0 Hyel)
      as (yq & Hy & Hlo & Hhi).
    change (inject_Z 1000) with 1000 in Hhi.
    assert (Hfin : Qabs yq < overflow_threshold).
    { rewrite Qabs_pos by exact Hlo. lra. }
    destruct (not_crashed_step st r yq Hc Hy Hfin)
      as (gx & gy & gz & alt & a & _ & Hstep & Ha & Haq & _).
    eexists. eexists. exists a. split; [exact Hstep|].
    cbn [Command.altitude]. split; [exact Ha|].
    destruct (altitude_spec_facts (sensor r) yq) as (_ & _ & H3 & H4 & H5).
    rewrite Haq. set (v := altitude_spec (sensor r) yq) in *.
    assert (Hd : -1 <= target_of_sensor (sensor r) - yq).
    { rewrite Hs. change (target_of_sensor "YELLOW") with 999. lra. }
    set (d := target_of_sensor (sensor r) - yq) in *.
    destruct (Qlt_le_dec (Qabs d) 10) as [Hlt|Hge].
    + rewrite (H4 Hlt). apply Qle_refl.
    + assert (Hpos : 10 <= d).
      { destruct (Qlt_le_dec d 0) as [Hneg|Hp].
        - rewrite Qabs_neg in Hge by lra. lra.
        - rewrite Qabs_pos in Hge by lra. exact Hge. }
      nra.
Qed.

(** Under RED a record that is not crashed is always inside the dead band:
    a command is produced and its altitude is the integer 0, whatever the
    state.  Under YELLOW a record that is not crashed gets a command, and
    never one to descend.  Both for an altitude that is not nan; under other
    sensor values an infinite altitude passes the crash check and no command
    is produced. *)
Theorem red_zone_holds_altitude (st : state) (r : telemetry_record) :
  check_crash r = Ok false ->
  y r <> NaN ->
  (sensor r = "RED"%string ->
   exists (st' : state) (c : Command.t),
     control_step st r = Ok (st', c) /\ Command.altitude c = Int 0)
  /\ (sensor r = "YELLOW"%string ->
      exists (st' : state) (c : Command.t) (a : Q),
        control_step st r = Ok (st', c)
        /\ value (Command.altitude c) = Fin a /\ 0 <= a).
Proof.
  exact (not_crashed_zones st r).
Qed.

Lemma red_zone_holds_altitude_witness :
  let r := finite_record 0 3 50 [0; 0; 0] 0 0 "RED" in
  exists (st' : state) (c : Command.t),
    control_step initial_state r = Ok (st', c)
    /\ Command.altitude c = Int 0.
Proof.
  intro r.
  destruct (red_zone_holds_altitude initial_state r eq_refl) as [Hred _];
    [discriminate|].
  apply Hred. reflexivity.
Defined.

(** ** Speed and movement, branch by branch *)

Lemma dle_not_lt (a b : double) : a <=d b -> dlt b a = false.
Proof.
  destruct a as [p| | |], b as [q| | |]; cbn; intro H;
    try discriminate; try reflexivity.
  reflect_tests. apply Qltb_ge, H.
Qed.

Lemma dlt_not_le (a b : double) : a <d b -> dle b a = false.
Proof.
  destruct a as [p| | |], b as [q| | |]; cbn; intro H;
    try discriminate; try reflexivity.
  reflect_tests. apply Qle_bool_gt, H.
Qed.

Lemma dlt_irrefl_pair (a b : double) : a <d b -> dlt b a = false.
Proof.
  destruct a as [p| | |], b as [q| | |]; cbn; intro H;
    try discriminate; try reflexivity.
  reflect_tests. apply Qltb_ge. lra.
Qed.

(** Within 90000 of the origin the lateral override leaves the movement as
    it is. *)
Lemma lateral_override_inside (current_x : double) (m : direction) :
  dabs current_x <=d of_int 90000 ->
  lateral_override current_x m = m.
Proof.
  unfold lateral_override.
  destruct current_x as [xq| | |]; cbn; try discriminate.
  intro H. reflect_tests. apply Qabs_Qle_condition in H. destruct H as [Hl Hu].
  assert (E1 : (inject_Z 90000 <? xq) = false) by (apply Qltb_ge; exact Hu).
  assert (E2 : (xq <? inject_Z (-90000)) = false)
    by (apply Qltb_ge; exact Hl).
  rewrite E1, E2. reflexivity.
Qed.

Lemma speed_movement_tilt (st : state) (battery gx : double) :
  of_int 20 <=d battery ->
  Fin 0.8 <=d dabs gx ->
  speed_movement st battery gx
  = (Z.max 1 (speed st - 1), flipped (current_movement st)).
Proof.
  intros Hb Hx. unfold speed_movement.
  rewrite (dle_not_lt _ _ Hb). change (8 # 10) with 0.8. rewrite Hx.
  reflexivity.
Qed.

Lemma speed_movement_no_tilt (st : state) (battery gx : double) :
  battery <d of_int 20 \/ dabs gx <d Fin 0.8 ->
  snd (speed_movement st battery gx) = current_movement st
  /\ (of_int 20 <=d battery -> Fin (1 # 2) <=d dabs gx ->
      fst (speed_movement st battery gx) = speed st).
Proof.
  intro Hcase. unfold speed_movement.
  destruct (dlt battery (of_int 20)) eqn:Eb.
  - split; [reflexivity|]. intros Hb _.
    rewrite (dle_not_lt _ _ Hb) in Eb. discriminate Eb.
  - destruct Hcase as [Hcase|Hcase]; [congruence|].
    change (8 # 10) with 0.8. rewrite (dlt_not_le _ _ Hcase).
    destruct (dlt (dabs gx) (Fin (1 # 2)) && dlt (of_int 20) battery) eqn:Ei.
    + split; [reflexivity|]. intros _ Hx.
      apply andb_true_iff in Ei. destruct Ei as [Ei _].
      rewrite (dle_not_lt _ _ Hx) in Ei. discriminate Ei.
    + split; reflexivity.
Qed.

Lemma speed_movement_step (st : state) (battery gx : double) :
  (1 <= speed st <= 5)%Z ->
  (fst (speed_movement st battery gx) <= speed st + 1)%Z
  /\ (of_int 20 <=d battery ->
      (speed st - 1 <= fst (speed_movement st battery gx))%Z)
  /\ (battery <d of_int 20 -> fst (speed_movement st battery gx) = 1%Z)
  /\ (battery <=d of_int 20 ->
      (fst (speed_movement st battery gx) <= speed st)%Z).
Proof.
  intro Hs. unfold speed_movement.
  assert (Hle : of_int 20 <=d battery -> dlt battery (of_int 20) = false)
    by apply dle_not_lt.
  assert (Hge : battery <=d of_int 20 -> dlt (of_int 20) battery = false)
    by apply dle_not_lt.
  destruct (dlt battery (of_int 20)) eqn:E1.
  - cbn [fst]. repeat split; intros; try lia.
    specialize (Hle H). discriminate Hle.
  - destruct (dle (Fin (8 # 10)) (dabs gx)) eqn:E2.
    + cbn [fst]. repeat split; intros; try lia; try discriminate.
    + destruct (dlt (dabs gx) (Fin (1 # 2)) && dlt (of_int 20) battery)
        eqn:E3; cbn [fst]; repeat split; intros; try lia;
        try discriminate.
      apply andb_true_iff in E3. destruct E3 as [_ E3].
      rewrite (Hge H) in E3. discriminate E3.
Qed.

(** The tilt branch: with battery at 20 or more and |gx| at 0.8 or more, a
    command that is produced has the speed dropped by one, not below 1, and
    the movement reversed unless x is beyond 90000 on either side. *)
Theorem tilt_reverses_and_slows (st st' : state) (r : telemetry_record)
  (c : Command.t) (gx gy gz : double) :
  control_step st r = Ok (st', c) ->
  gyro r = [gx; gy; gz] ->
  of_int 20 <=d battery r ->
  Fin 0.8 <=d dabs gx ->
  speed st' = Z.max 1 (speed st - 1)
  /\ Command.speed c = speed st'
  /\ Command.movement c = current_movement st'
  /\ (dabs (x r) <=d of_int 90000 ->
      current_movement st' = flipped (current_movement st)).
Proof.
  intros H Hg Hb Hx.
  destruct (control_step_ok_shape st st' r c H)
    as (gx' & gy' & gz' & yq & alt & a & Hg' & _ & _ & -> & -> & _).
  rewrite Hg in Hg'. injection Hg' as <- <- <-.
  rewrite (speed_movement_tilt st (battery r) gx Hb Hx).
  cbn [fst snd speed current_movement Command.speed Command.movement].
  repeat split.
  intro Hlat. apply lateral_override_inside, Hlat.
Qed.

Lemma tilt_reverses_and_slows_witness :
  let r := finite_record 100 10 20 [-0.8; 0; 0] 0 0 "GREEN" in
  let st' := mkState fwd 1 in
  let c := Command.mk 1 (Int 100) fwd in
  control_step (mkState rev 1) r = Ok (st', c)
  /\ speed st' = Z.max 1 (1 - 1)
  /\ current_movement st' = flipped rev.
Proof.
  intros r st' c.
  destruct (tilt_reverses_and_slows (mkState rev 1) st' r c
              (Fin (-0.8)) (Fin 0) (Fin 0))
    as (Hs & _ & _ & Hm); try reflexivity.
  split; [reflexivity|]. split; [exact Hs|].
  apply Hm. reflexivity.
Defined.

(** Outside the tilt branch and the lateral override the movement is kept:
    with battery below 20 or |gx| below 0.8, and x within 90000 of the
    origin.  In the band 0.5 <= |gx| < 0.8, with battery at 20 or more, the
    speed is kept too. *)
Theorem movement_kept_without_tilt (st st' : state) (r : telemetry_record)
  (c : Command.t) (gx gy gz : double) :
  control_step st r = Ok (st', c) ->
  gyro r = [gx; gy; gz] ->
  battery r <d of_int 20 \/ dabs gx <d Fin 0.8 ->
  dabs (x r) <=d of_int 90000 ->
  current_movement st' = current_movement st
  /\ Command.movement c = current_movement st
  /\ (of_int 20 <=d battery r -> Fin (1 # 2) <=d dabs gx ->
      speed st' = speed st).
Proof.
  intros H Hg Hcase Hlat.
  destruct (control_step_ok_shape st st' r c H)
    as (gx' & gy' & gz' & yq & alt & a & Hg' & _ & _ & -> & -> & _).
  rewrite Hg in Hg'. injection Hg' as <- <- <-.
  destruct (speed_movement_no_tilt st (battery r) gx Hcase) as [Hm Hs].
  cbn [speed current_movement Command.movement].
  rewrite (lateral_override_inside _ _ Hlat), Hm.
  repeat split. exact Hs.
Qed.

Lemma movement_kept_without_tilt_witness :
  let r := finite_record 90000 10 50 [0.6; 0; 0] 0 0 "GREEN" in
  let st' := mkState rev 4 in
  let c := Command.mk 4 (Int 100) rev in
  control_step (mkState rev 4) r = Ok (st', c)
  /\ current_movement st' = rev
  /\ speed st' = 4%Z.
Proof.
  intros r st' c.
  destruct (movement_kept_without_tilt (mkState rev 4) st' r c
              (Fin 0.6) (Fin 0) (Fin 0))
    as (Hm & _ & Hs); try reflexivity.
  - right. reflexivity.
  - split; [reflexivity|]. split; [exact Hm|].
    apply Hs; reflexivity.
Defined.

(** From a speed in 1..5, one cycle moves the speed by one step at most,
    except that a battery below 20 drops it to 1 at once; and with a battery
    at 20 or less the speed never rises. *)
Theorem speed_step_bounded (st st' : state) (r : telemetry_record)
  (c : Command.t) :
  (1 <= speed st <= 5)%Z ->
  control_step st r = Ok (st', c) ->
  (speed st' <= speed st + 1)%Z
  /\ (of_int 20 <=d battery r -> (speed st - 1 <= speed st')%Z)
  /\ (battery r <d of_int 20 -> speed st' = 1%Z)
  /\ (battery r <=d of_int 20 -> (speed st' <= speed st)%Z).
Proof.
  intros Hs H.
  destruct (control_step_ok_shape st st' r c H)
    as (gx & gy & gz & yq & alt & a & _ & _ & _ & -> & _).
  cbn [speed]. apply speed_movement_step, Hs.
Qed.

Lemma speed_step_bounded_witness :
  let r := finite_record 0 10 20 [0.1; 0; 0] 0 0 "GREEN" in
  control_step (mkState fwd 2) r
  = Ok (mkState fwd 2, Command.mk 2 (Int 100) fwd)
  /\ (2 <= 2 + 1)%Z
  /\ (2 <= 2)%Z.
Proof.
  intro r.
  destruct (speed_step_bounded (mkState fwd 2) (mkState fwd 2) r
              (Command.mk 2 (Int 100) fwd)) as (H1 & _ & _ & H4);
    [cbn; lia | reflexivity |].
  split; [reflexivity|]. split; [exact H1|].
  apply H4. reflexivity.
Defined.

(** ** Consecutive cycles *)

Lemma speed_movement_calm (st : state) (battery gx : double) :
  of_int 20 <d battery ->
  dabs gx <d Fin (1 # 2) ->
  speed_movement st battery gx
  = (Z.min 5 (speed st + 1), current_movement st).
Proof.
  intros Hb Hx. unfold speed_movement.
  rewrite (dlt_irrefl_pair _ _ Hb), Hx, Hb.
  destruct gx as [q| | |]; cbn [dabs dle dlt] in *; try discriminate.
  assert (E : Qle_bool (8 # 10) (Qabs q) = false).
  { reflect_tests. apply Qle_bool_gt. lra. }
  rewrite E. reflexivity.
Qed.

Lemma calm_step (st : state) (r : telemetry_record) :
  calm r ->
  exists (st' : state) (c : Command.t),
    control_step st r = Ok (st', c)
    /\ speed st' = Z.min 5 (speed st + 1).
Proof.
  intros (Hc & (yq & Hy & Hfin) & Hb & gx & gy & gz & Hg & Hx).
  destruct (not_crashed_step st r yq Hc Hy Hfin)
    as (gx' & gy' & gz' & alt & a & Hg' & Hstep & _).
  rewrite Hg in Hg'. injection Hg' as <- <- <-.
  eexists. eexists. split; [exact Hstep|].
  cbn [speed]. rewrite (speed_movement_calm st (battery r) gx Hb Hx).
  reflexivity.
Qed.

Lemma last_cons {A : Type} (a d : A) (l : list A) :
  last (a :: l) d = last l a.
Proof.
  revert a d. induction l as [|b l IH]; intros a d; [reflexivity|].
  change (last (a :: b :: l) d) with (last (b :: l) d).
  rewrite (IH b d). symmetry. apply IH.
Qed.

Lemma calm_cycles (records : list telemetry_record) :
  forall st : state,
    (speed st <= 5)%Z ->
    Forall calm records ->
    exists sent : list (state * Command.t),
      control_steps st records = (sent, None)
      /\ List.length sent = List.length records
      /\ speed (last_state st sent)
         = Z.min 5 (speed st + Z.of_nat (List.length records)).
Proof.
  induction records as [|r records IH]; intros st Hs Hall.
  - exists []. split; [reflexivity|]. split; [reflexivity|]. cbn. lia.
  - inversion Hall as [|? ? Hr Hrest]; subst.
    destruct (calm_step st r Hr) as (st' & c & Hstep & Hspeed).
    destruct (IH st' ltac:(lia) Hrest) as (sent & Hrun & Hlen & Hlast).
    exists ((st', c) :: sent). cbn [control_steps].
    rewrite Hstep, Hrun.
    split; [reflexivity|]. split; [cbn [List.length]; lia|].
    unfold last_state in *. cbn [map fst]. rewrite last_cons, Hlast, Hspeed.
    cbn [List.length]. lia.
Qed.

(** Cycles on calm records add up: none fails, and after n of them in a row
    the speed is min(5, speed + n), so four are enough to reach 5 from any
    speed in 1..5, and the speed then stays there. *)
Theorem calm_cycles_raise_speed (records : list telemetry_record) :
  forall st : state,
    (speed st <= 5)%Z ->
    Forall calm records ->
    exists sent : list (state * Command.t),
      control_steps st records = (sent, None)
      /\ List.length sent = List.length records
      /\ speed (last_state st sent)
         = Z.min 5 (speed st + Z.of_nat (List.length records)).
Proof.
  exact (calm_cycles records).
Qed.

Lemma calm_cycles_raise_speed_witness :
  let r := finite_record 0 10 50 [0.1; 0; 0] 0 0 "GREEN" in
  exists sent : list (state * Command.t),
    control_steps (mkState rev 1) [r; r; r; r] = (sent, None)
    /\ List.length sent = 4%nat
    /\ speed (last_state (mkState rev 1) sent) = 5%Z.
Proof.
  intro r.
  apply (calm_cycles_raise_speed [r; r; r; r] (mkState rev 1)).
  - cbn. lia.
  - assert (Hr : calm r).
    { split; [reflexivity|]. split; [exists 10; split; reflexivity|].
      split; [reflexivity|].
      exists (Fin 0.1), (Fin 0), (Fin 0). split; reflexivity. }
    repeat (apply Forall_cons; [exact Hr|]). apply Forall_nil.
Defined.

(** * Further properties of the loop *)

(** Once the loop has stopped for another reason than the end of the
    responses, what the server sends afterwards changes nothing: no command
    is sent after a crashed status, a crash verdict or an exception. *)
Theorem loop_stop_is_final (inbox more : list data) :
  forall st : state,
    snd (drone_control_loop st inbox) <> ConnectionClosed ->
    drone_control_loop st (inbox ++ more) = drone_control_loop st inbox.
Proof.
  induction inbox as [|d inbox IH]; intros st H.
  - contradiction H. reflexivity.
  - cbn [app drone_control_loop] in *.
    destruct (String.eqb (status d) "crashed"); [reflexivity|].
    destruct (parse_telemetry (telemetry d)) as [parsed|];
      [|apply IH, H].
    destruct (check_crash parsed) as [[|]|e]; try reflexivity.
    destruct (control_step st parsed) as [[st' c]|e]; [|reflexivity].
    destruct (drone_control_loop st' inbox) as [sent why] eqn:E.
    rewrite IH by (rewrite E; exact H). rewrite E. reflexivity.
Qed.

Lemma loop_stop_is_final_witness :
  let crashed := mkData "crashed" EmptyString in
  let ok :=
    mkData "ok"
      "X-0-Y-10-BAT-50-GYR-[0.1,0,0]-WIND-0-DUST-0-SENS-GREEN" in
  drone_control_loop initial_state ([ok; crashed] ++ [ok; ok])
  = drone_control_loop initial_state [ok; crashed].
Proof.
  intros crashed ok.
  apply (loop_stop_is_final [ok; crashed] [ok; ok] initial_state).
  vm_compute. discriminate.
Defined.

(** A response whose telemetry does not decode is skipped and leaves no
    trace: the loop does the same on the responses without the skipped
    ones. *)
Theorem loop_ignores_undecodable (inbox : list data) :
  forall st : state,
    drone_control_loop st inbox
    = drone_control_loop st (filter not_skipped inbox).
Proof.
  induction inbox as [|d inbox IH]; intro st; [reflexivity|].
  cbn [filter]. unfold not_skipped at 1.
  destruct (String.eqb (status d) "crashed") eqn:Es.
  - cbn [orb drone_control_loop]. rewrite Es. reflexivity.
  - cbn [orb].
    destruct (parse_telemetry (telemetry d)) as [parsed|] eqn:Ep.
    + cbn [drone_control_loop]. rewrite Es, Ep.
      destruct (check_crash parsed) as [[|]|e]; try reflexivity.
      destruct (control_step st parsed) as [[st' c]|e]; [|reflexivity].
      rewrite IH. reflexivity.
    + cbn [drone_control_loop]. rewrite Es, Ep. apply IH.
Qed.

Lemma loop_ignores_undecodable_witness :
  let bad := mkData "ok" "X-1-Y-2" in
  let ok :=
    mkData "ok"
      "X-0-Y-10-BAT-50-GYR-[0.1,0,0]-WIND-0-DUST-0-SENS-GREEN" in
  drone_control_loop initial_state [bad; ok; bad; bad; ok]
  = drone_control_loop initial_state [ok; ok].
Proof.
  intros bad ok.
  exact (loop_ignores_undecodable [bad; ok; bad; bad; ok] initial_state).
Defined.

Lemma loop_on_answered (inbox : list data)
  (records : list telemetry_record) :
  forall st : state,
    Forall2 answered inbox records ->
    drone_control_loop st inbox
    = (fst (control_steps st records),
       stop_of (snd (control_steps st records))).
Proof.
  intros st Hall. revert st.
  induction Hall as [|d r inbox records (Hs & Hp & Hc) Hall IH]; intro st.
  - reflexivity.
  - cbn [control_steps drone_control_loop].
    rewrite Hs, Hp, Hc.
    destruct (control_step st r) as [[st' c]|e]; [|reflexivity].
    rewrite (IH st').
    destruct (control_steps st' records) as [sent e]. reflexivity.
Qed.

(** On responses that are all answered the loop is the loop body iterated:
    it sends, in order, the commands of [control_steps] on the decoded
    records, each computed from the variables the previous one left.  It ends
    when the responses do, or at the first record on which the loop body
    fails, with that exception. *)
Theorem loop_runs_control_steps (inbox : list data)
  (records : list telemetry_record) :
  forall st : state,
    Forall2 answered inbox records ->
    drone_control_loop st inbox
    = (fst (control_steps st records),
       stop_of (snd (control_steps st records))).
Proof.
  exact (loop_on_answered inbox records).
Qed.

Lemma loop_runs_control_steps_witness :
  let r := finite_record 0 10 50 [0.5; 0; 0] 0 0 "GREEN" in
  let ok :=
    mkData "ok"
      "X-0-Y-10-BAT-50-GYR-[0.5,0,0]-WIND-0-DUST-0-SENS-GREEN" in
  drone_control_loop initial_state [ok; ok]
  = (fst (control_steps initial_state [r; r]),
     stop_of (snd (control_steps initial_state [r; r]))).
Proof.
  intros r ok.
  apply (loop_runs_control_steps [ok; ok] [r; r] initial_state).
  assert (H : answered ok r).
  { split; [reflexivity|]. split; [vm_compute; reflexivity | reflexivity]. }
  repeat (apply Forall2_cons; [exact H|]). apply Forall2_nil.
Defined.







(** The loop sends at most one command for each response received. *)
Theorem loop_sends_at_most_one_per_response (inbox : list data) :
  forall st : state,
    (List.length (fst (drone_control_loop st inbox))
     <= List.length inbox)%nat.
Proof.
  induction inbox as [|d inbox IH]; intro st; cbn [drone_control_loop].
  - cbn. lia.
  - destruct (String.eqb (status d) "crashed"); [cbn; lia|].
    destruct (parse_telemetry (telemetry d)) as [parsed|].
    + destruct (check_crash parsed) as [[|]|e]; try (cbn; lia).
      destruct (control_step st parsed) as [[st' c]|e]; [|cbn; lia].
      specialize (IH st').
      destruct (drone_control_loop st' inbox) as [sent why].
      cbn in *. lia.
    + specialize (IH st). cbn. lia.
Qed.
